(** * poly-market-maker: the SafeSpread quoting engine and its strategy wrapper

    Shallow embedding of
      - [poly_market_maker/strategies/safe_spread.py]          (class [SafeSpread])
      - [poly_market_maker/strategies/safe_spread_strategy.py] (class [SafeSpreadStrategy])

    Numbers.  The Python code computes on binary64 floats.  This development
    reads every float as the exact rational it denotes: arithmetic is exact
    arithmetic on [Q], comparisons are the rational order, and
    [round(x, ndigits)] is round-half-to-even at [ndigits] decimals.  The
    only Python exception the arithmetic of these two files can raise, a
    [ZeroDivisionError] in [_bid_size], is kept as an explicit failure. *)

From stdpp Require Import base option gmap strings.
From Stdlib Require Import ZArith QArith Qround Qabs Qminmax Lia Lqa List.
Import ListNotations.

Local Open Scope Q_scope.

(** ** Python numerics on rationals *)

Module PyNum.

(** [10 ** d] as a rational. *)
Definition pow10 (d : nat) : Q := inject_Z (10 ^ Z.of_nat d).

(** Nearest integer, ties to the even neighbour (what [round] does). *)
Definition round_half_even (x : Q) : Z :=
  let f := Qfloor x in
  match Qcompare (x - inject_Z f) (1 # 2) with
  | Lt => f
  | Gt => (f + 1)%Z
  | Eq => if Z.even f then f else (f + 1)%Z
  end.

(** [round(x, d)] for a float [x] and [d >= 0]. *)
Definition py_round (x : Q) (d : nat) : Q :=
  inject_Z (round_half_even (x * pow10 d)) / pow10 d.

(** [int(x)] on a float: truncation towards zero. *)
Definition py_int (x : Q) : Z := Z.quot (Qnum x) (Z.pos (Qden x)).

(** Float comparisons as booleans. *)
Definition Qleb (x y : Q) : bool := Qle_bool x y.
Definition Qltb (x y : Q) : bool := negb (Qle_bool y x).
Definition Qeqb (x y : Q) : bool := Qeq_bool x y.

(** [l[k:]] for a Python list and an integer [k], negative [k] counting from
    the end. *)
Definition py_slice_from {A : Type} (l : list A) (k : Z) : list A :=
  if (0 <=? k)%Z then skipn (Z.to_nat k) l
  else skipn (length l - Z.to_nat (- k)) l.

End PyNum.
Import PyNum.

(** ** Data model *)

(** The constants of [poly_market_maker.constants] that the two files import.
    Their values are not part of the two files; the development is
    parametric in them. *)
Class Constants := {
  MIN_TICK : Q;
  MIN_SIZE : Q;
  MAX_DECIMALS : nat
}.

(** A reference instance on which the model is evaluated: a tick of 0.01, a
    minimum order size of 15, two decimals. *)
Definition reference_constants : Constants :=
  {| MIN_TICK := 1 # 100; MIN_SIZE := 15; MAX_DECIMALS := 2 |}.

(** Modelled from the spec: [poly_market_maker.token.Token], an enumeration of
    exactly two complementary outcome tokens, iterated in the order [A], [B];
    [complement] maps each to the other. *)
Inductive Token := A | B.

Definition complement (t : Token) : Token :=
  match t with A => B | B => A end.

(** [for token in Token] *)
Definition all_tokens : list Token := [A; B].

#[global] Instance Token_eq_dec : EqDecision Token.
Proof. solve_decision. Defined.

#[global] Instance Token_countable : Countable Token.
Proof.
  refine (inj_countable' (fun t => match t with A => false | B => true end)
                         (fun b => if b then B else A) _).
  intros []; reflexivity.
Defined.

(** Modelled from the spec: [poly_market_maker.order.Side] and
    [poly_market_maker.order.Order], an immutable value with a price, a
    size, a side and the token it rests on; membership tests ([o in l])
    compare orders by value. *)
Inductive Side := BUY | SELL.

Definition Side_eqb (a b : Side) : bool :=
  match a, b with BUY, BUY | SELL, SELL => true | _, _ => false end.

Definition Token_eqb (a b : Token) : bool :=
  match a, b with A, A | B, B => true | _, _ => false end.

Record Order := mkOrder {
  price : Q;
  size : Q;
  side : Side;
  token : Token
}.

Definition Order_eqb (a b : Order) : bool :=
  Qeqb (price a) (price b) && Qeqb (size a) (size b)
  && Side_eqb (side a) (side b) && Token_eqb (token a) (token b).

(** [o in l] *)
Definition order_in (o : Order) (l : list Order) : bool :=
  existsb (Order_eqb o) l.

(** The builtin [sum]: a left-to-right accumulation from zero. *)
Definition py_sum (l : list Q) : Q := fold_left Qplus l 0.

(** [sum(o.size * o.price for o in l if o.side == Side.BUY)] *)
Definition buy_notional (l : list Order) : Q :=
  py_sum (map (fun o => size o * price o)
              (List.filter (fun o => Side_eqb (side o) BUY) l)).

(** The state of a [SafeSpread] object: the ten configuration fields bound
    by [__init__] and the live context written by [set_context]. *)
Record SafeSpread := mkSafeSpread {
  target_spread : Q;
  half_spread_override : option Q;
  order_size : Q;
  max_bids : Z;
  max_asks : Z;
  cancel_if_away_by : Q;
  max_inventory_per_token : Q;
  max_notional_per_side : Q;
  skew_per_unit : Q;
  min_place_size : Q;
  _balances : gmap Token Q;
  _free_collateral : Q
}.

(** ** [SafeSpread.__init__] *)

(** The local helper [get(keys, default)]: the value of the first key of
    [keys] present in [cfg], else [default]. *)
Fixpoint get {T : Type} (cfg : gmap string T) (keys : list string) (default : T) : T :=
  match keys with
  | [] => default
  | k :: ks =>
      match cfg !! k with
      | Some v => v
      | None => get cfg ks default
      end
  end.

(** A configuration dictionary maps key names to numbers. *)
Definition SafeSpread_init (cfg : gmap string Q) : SafeSpread :=
  {| target_spread := get cfg ["target_spread"; "targetSpread"]%string (3 # 100);
     half_spread_override :=
       get (Some <$> cfg) ["half_spread_override"; "halfSpreadOverride"]%string None;
     order_size := get cfg ["order_size"; "orderSize"]%string 10;
     max_bids := py_int (get cfg ["max_bids"; "maxBids"]%string 2);
     max_asks := py_int (get cfg ["max_asks"; "maxAsks"]%string 2);
     cancel_if_away_by := get cfg ["cancel_if_away_by"; "cancelIfAwayBy"]%string (2 # 100);
     max_inventory_per_token :=
       get cfg ["max_inventory_per_token"; "maxInventoryPerToken"]%string 40;
     max_notional_per_side :=
       get cfg ["max_notional_per_side"; "maxNotionalPerSide"]%string 120;
     skew_per_unit := get cfg ["skew_per_unit"; "skewPerUnit"]%string (5 # 10000);
     min_place_size := get cfg ["min_place_size"; "minPlaceSize"]%string (1 # 10);
     _balances := gset_to_gmap 0 (list_to_set all_tokens);
     _free_collateral := 0 |}.

(** [set_context(balances, free_collateral)] *)
Definition set_context (self : SafeSpread) (balances : gmap Token Q) (free_collateral : Q)
  : SafeSpread :=
  {| target_spread := target_spread self;
     half_spread_override := half_spread_override self;
     order_size := order_size self;
     max_bids := max_bids self;
     max_asks := max_asks self;
     cancel_if_away_by := cancel_if_away_by self;
     max_inventory_per_token := max_inventory_per_token self;
     max_notional_per_side := max_notional_per_side self;
     skew_per_unit := skew_per_unit self;
     min_place_size := min_place_size self;
     _balances := balances;
     _free_collateral := free_collateral |}.

(** ** The quoting engine *)

Section Engine.
Context `{K : Constants}.

Definition _round_price (x : Q) : Q :=
  py_round (Qmax MIN_TICK (Qmin (1 - MIN_TICK) x)) MAX_DECIMALS.

Definition _clamp (x lo hi : Q) : Q := Qmax lo (Qmin hi x).

(** [self._balances.get(token, 0.0)] *)
Definition holdings (self : SafeSpread) (t : Token) : Q :=
  default 0 (_balances self !! t).

Definition _mid_with_skew (self : SafeSpread) (base_mid : Q) (t : Token) : Q :=
  let inv := holdings self t in
  let skew := inv * skew_per_unit self in
  _round_price (base_mid - skew).

Definition _desired_quotes (self : SafeSpread) (mid : Q) : Q * Q :=
  let half :=
    match half_spread_override self with
    | Some h => h
    | None => target_spread self / 2
    end in
  let half := Qmax half MIN_TICK in
  let bid := _round_price (mid - half) in
  let ask := _round_price (mid + half) in
  let ask := if Qleb ask bid then _round_price (bid + MIN_TICK) else ask in
  (bid, ask).

(** *** Cancellation *)

(** The first loop of [cancellable_orders]: the token of the first BUY. *)
Fixpoint first_buy_token (orders : list Order) : option Token :=
  match orders with
  | [] => None
  | o :: rest =>
      if Side_eqb (side o) BUY then Some (token o) else first_buy_token rest
  end.

(** The second loop: the complement of the token of the first SELL. *)
Fixpoint first_sell_complement (orders : list Order) : option Token :=
  match orders with
  | [] => None
  | o :: rest =>
      if Side_eqb (side o) SELL then Some (complement (token o))
      else first_sell_complement rest
  end.

Definition deduce_buy_token (orders : list Order) : option Token :=
  match first_buy_token orders with
  | Some t => Some t
  | None => first_sell_complement orders
  end.

(** A SELL on the complement is expressed in buy-token price space as
    [1 - price]. *)
Definition effective_price (o : Order) : Q :=
  match side o with
  | BUY => price o
  | SELL => py_round (1 - price o) MAX_DECIMALS
  end.

(** The distance of an order to its side's target, the far test and the sort
    key of [cancellable_orders].  It is the exact distance: where two
    distances to compare are equal as decimals (an order exactly
    [cancel_if_away_by] from its target, two orders exactly as far from the
    target on either side of it) the binary64 subtraction of the code can
    decide either way, so the properties below are stated away from such
    ties. *)
Definition closeness (bid_target ask_target : Q) (o : Order) : Q :=
  Qabs (effective_price o - match side o with BUY => bid_target | SELL => ask_target end).

(** [l.sort(key=f)]: a stable sort, ascending in the key. *)
Fixpoint insert_by_key {X : Type} (f : X -> Q) (x : X) (l : list X) : list X :=
  match l with
  | [] => [x]
  | y :: rest =>
      if Qleb (f x) (f y) then x :: y :: rest else y :: insert_by_key f x rest
  end.

Definition sort_by_key {X : Type} (f : X -> Q) (l : list X) : list X :=
  fold_right (insert_by_key f) [] l.

(** [l[n:] if len(l) > n else []] *)
Definition excess {X : Type} (l : list X) (n : Z) : list X :=
  if (n <? Z.of_nat (length l))%Z then py_slice_from l n else [].

Definition cancellable_orders (self : SafeSpread) (orders : list Order) (target_price : Q)
  : list Order :=
  match orders with
  | [] => []
  | _ =>
      match deduce_buy_token orders with
      | None => []
      | Some buy_token =>
          let mid := _mid_with_skew self target_price buy_token in
          let '(bid_target, ask_target) := _desired_quotes self mid in
          let far_aways :=
            List.filter
              (fun o => Qltb (cancel_if_away_by self) (closeness bid_target ask_target o))
              orders in
          let keep_buys :=
            List.filter
              (fun o => Side_eqb (side o) BUY && negb (order_in o far_aways)) orders in
          let keep_sells :=
            List.filter
              (fun o => Side_eqb (side o) SELL && negb (order_in o far_aways)) orders in
          let keep_buys := sort_by_key (closeness bid_target ask_target) keep_buys in
          let keep_sells := sort_by_key (closeness bid_target ask_target) keep_sells in
          let cancel_extra_buys := excess keep_buys (max_bids self) in
          let cancel_extra_sells := excess keep_sells (max_asks self) in
          far_aways ++ cancel_extra_buys ++ cancel_extra_sells
      end
  end.

(** *** Placement *)

(** The closure [has_near(side, price_buy_space)] of [new_orders], with its
    default [eps = MIN_TICK].  The distance is the exact one: for an order
    exactly one tick from the price the binary64 test of the code can fail
    ([abs(0.47 - 0.48)] is [0.010000000000000009]), so the properties below
    speak of orders strictly nearer than one tick. *)
Fixpoint has_near (orders : list Order) (s : Side) (price_buy_space : Q) : bool :=
  match orders with
  | [] => false
  | o :: rest =>
      if negb (Side_eqb (side o) s) then has_near rest s price_buy_space
      else
        let p_eff :=
          match s with
          | BUY => price o
          | SELL => py_round (1 - price o) MAX_DECIMALS
          end in
        if Qleb (Qabs (p_eff - price_buy_space)) MIN_TICK then true
        else has_near rest s price_buy_space
  end.

Definition _can_place_ask (self : SafeSpread) (token_balance : Q) : bool :=
  Qleb (Qmax (min_place_size self) MIN_SIZE) token_balance.

Definition _ask_size (self : SafeSpread) (token_balance : Q) (t : Token) : Q :=
  let size0 := Qmin (order_size self) token_balance in
  let inv := holdings self t in
  let size1 :=
    if Qltb (max_inventory_per_token self) inv then
      let over := inv - max_inventory_per_token self in
      Qmax size0 (Qmin over token_balance)
    else size0 in
  py_round (_clamp size1 MIN_SIZE token_balance) MAX_DECIMALS.

Definition _can_place_bid (self : SafeSpread) (collateral_balance price : Q) (buy_token : Token)
  : bool :=
  if Qltb collateral_balance (price * Qmax (min_place_size self) MIN_SIZE) then false
  else if Qltb (max_notional_per_side self) (price * order_size self) then false
  else
    let inv_now := holdings self buy_token in
    if Qleb (max_inventory_per_token self) inv_now then false
    else true.

(** The two divisions by [price] raise [ZeroDivisionError] when [price] is
    zero: [None] stands for the exception. *)
Definition _bid_size (self : SafeSpread) (collateral_balance price : Q) (buy_token : Token)
  : option Q :=
  if Qeqb price 0 then None
  else
    let max_by_cash := collateral_balance / price in
    let max_by_notional := max_notional_per_side self / price in
    let inv_now := holdings self buy_token in
    let headroom := Qmax 0 (max_inventory_per_token self - inv_now) in
    let size0 :=
      Qmin (Qmin (Qmin (order_size self) max_by_cash) max_by_notional) headroom in
    Some (py_round (_clamp size0 MIN_SIZE (inject_Z (10 ^ 9))) MAX_DECIMALS).

(** The ASK half of [new_orders]: zero or one SELL on the complement. *)
Definition new_ask (self : SafeSpread) (orders : list Order) (token_balance ask_target : Q)
    (buy_token : Token) : list Order :=
  let sell_token := complement buy_token in
  let sell_price_actual := _round_price (1 - ask_target) in
  if negb (has_near orders SELL ask_target) && _can_place_ask self token_balance then
    let ask_size := _ask_size self token_balance sell_token in
    if Qleb (Qmax (min_place_size self) MIN_SIZE) ask_size then
      [mkOrder sell_price_actual ask_size SELL sell_token]
    else []
  else [].

(** The BID half of [new_orders]: zero or one BUY on the buy-token, or the
    exception of [_bid_size]. *)
Definition new_bid (self : SafeSpread) (orders : list Order) (collateral_balance bid_target : Q)
    (buy_token : Token) : option (list Order) :=
  if negb (has_near orders BUY bid_target)
     && _can_place_bid self collateral_balance bid_target buy_token then
    match _bid_size self collateral_balance bid_target buy_token with
    | None => None
    | Some bid_size =>
        if Qleb (Qmax (min_place_size self) MIN_SIZE) bid_size then
          Some [mkOrder bid_target bid_size BUY buy_token]
        else Some []
    end
  else Some [].

Definition new_orders (self : SafeSpread) (orders : list Order)
    (collateral_balance token_balance target_price : Q) (buy_token : Token)
  : option (list Order) :=
  let mid := _mid_with_skew self target_price buy_token in
  let '(bid_target, ask_target) := _desired_quotes self mid in
  let asks := new_ask self orders token_balance ask_target buy_token in
  match new_bid self orders collateral_balance bid_target buy_token with
  | None => None
  | Some bids => Some (asks ++ bids)
  end.

End Engine.

(** ** The strategy wrapper *)

(** Modelled from the spec: [poly_market_maker.orderbook.OrderBook], the
    resting orders together with a balances snapshot that holds a quantity for
    each outcome token and for the collateral. *)
Record OrderBook := mkOrderBook {
  orders : list Order;
  balances : Token -> Q;
  collateral : Q
}.

Section Strategy.
Context `{K : Constants}.

(** BUYs on [buy_token], SELLs on its complement. *)
Definition _filter_by_corresponding_buy_token (o : Order) (buy_token : Token) : bool :=
  (Side_eqb (side o) BUY && Token_eqb (token o) buy_token)
  || (Side_eqb (side o) SELL && negb (Token_eqb (token o) buy_token)).

Definition _orders_by_corresponding_buy_token (l : list Order) (buy_token : Token)
  : list Order :=
  List.filter (fun o => _filter_by_corresponding_buy_token o buy_token) l.

(** The cancel phase: [orders_to_cancel += ...] for each token in turn. *)
Definition cancel_phase (mm : SafeSpread) (by_token_orders : Token -> list Order)
    (target_prices : Token -> Q) : list Order :=
  fold_left
    (fun acc t => acc ++ cancellable_orders mm (by_token_orders t) (target_prices t))
    all_tokens [].

(** [locked_sells_by_token[t]] after the loop over the open orders. *)
Definition locked_sells_by_token (open_orders : list Order) (t : Token) : Q :=
  fold_left
    (fun acc o =>
       if Side_eqb (side o) SELL && Token_eqb (token o) t then acc + size o else acc)
    open_orders 0.

(** The placement loop: the state is the running free collateral and the
    orders collected so far. *)
Fixpoint placement_loop (mm : SafeSpread) (by_token_orders : Token -> list Order)
    (free_token_balance_by_token : Token -> Q) (target_prices : Token -> Q)
    (tokens : list Token) (free_collateral_balance : Q) (orders_to_place : list Order)
  : option (Q * list Order) :=
  match tokens with
  | [] => Some (free_collateral_balance, orders_to_place)
  | t :: rest =>
      let free_sell_token_balance := free_token_balance_by_token (complement t) in
      match new_orders mm (by_token_orders t) free_collateral_balance
                       free_sell_token_balance (target_prices t) t with
      | None => None
      | Some new =>
          placement_loop mm by_token_orders free_token_balance_by_token target_prices rest
            (free_collateral_balance - buy_notional new) (orders_to_place ++ new)
      end
  end.

(** Free collateral at the start of the placement phase: the collateral
    balance minus what the BUYs that survive cancellation lock. *)
Definition open_orders_of (ob : OrderBook) (orders_to_cancel : list Order) : list Order :=
  List.filter (fun o => negb (order_in o orders_to_cancel)) (orders ob).

Definition free_collateral_at_start (ob : OrderBook) (orders_to_cancel : list Order) : Q :=
  collateral ob - buy_notional (open_orders_of ob orders_to_cancel).

(** [SafeSpreadStrategy.get_orders]: the engine after the call, the cancel
    list and the place list; [None] when an exception escapes. *)
Definition get_orders (mm : SafeSpread) (ob : OrderBook) (target_prices : Token -> Q)
  : option (SafeSpread * (list Order * list Order)) :=
  let by_token_orders := fun t => _orders_by_corresponding_buy_token (orders ob) t in
  let orders_to_cancel := cancel_phase mm by_token_orders target_prices in
  let open_orders := open_orders_of ob orders_to_cancel in
  let free_collateral_balance := free_collateral_at_start ob orders_to_cancel in
  let free_token_balance_by_token :=
    fun t => balances ob t - locked_sells_by_token open_orders t in
  let mm' :=
    set_context mm (list_to_map (map (fun t => (t, balances ob t)) all_tokens))
                free_collateral_balance in
  match placement_loop mm' by_token_orders free_token_balance_by_token target_prices
                       all_tokens free_collateral_balance [] with
  | None => None
  | Some (_, orders_to_place) => Some (mm', (orders_to_cancel, orders_to_place))
  end.

End Strategy.

(** ** Vocabulary of the properties *)

(** A number with at most [d] decimals: an integer multiple of [10 ** -d]. *)
Definition on_grid (d : nat) (x : Q) : Prop :=
  exists k : Z, x == inject_Z k / pow10 d.

(** What the properties below ask of the imported constants: the tick is
    positive, below one half, and itself has at most [MAX_DECIMALS]
    decimals. *)
Definition constants_ok `{K : Constants} : Prop :=
  0 < MIN_TICK /\ 2 * MIN_TICK < 1 /\ on_grid MAX_DECIMALS MIN_TICK.

(** The target of a side, in buy-token price space, as [cancellable_orders]
    and [new_orders] both compute it. *)
Definition side_target `{K : Constants} (self : SafeSpread) (target_price : Q)
    (buy_token : Token) (s : Side) : Q :=
  let q := _desired_quotes self (_mid_with_skew self target_price buy_token) in
  match s with BUY => fst q | SELL => snd q end.

(** Half a unit of the last decimal that [round(x, MAX_DECIMALS)] keeps. *)
Definition half_unit `{K : Constants} : Q := (1 # 2) / pow10 MAX_DECIMALS.

(** The orders of a pair that are left once the cancellations are removed. *)
Definition survivors `{K : Constants} (self : SafeSpread) (orders : list Order)
    (target_price : Q) : list Order :=
  List.filter (fun o => negb (order_in o (cancellable_orders self orders target_price)))
              orders.

Definition count_side (s : Side) (l : list Order) : nat :=
  length (List.filter (fun o => Side_eqb (side o) s) l).

(** The quote pair [cancellable_orders] measures distances against, when the
    buy-token of the order list can be determined. *)
Definition pair_targets `{K : Constants} (self : SafeSpread) (orders : list Order)
    (target_price : Q) : option (Q * Q) :=
  match deduce_buy_token orders with
  | Some t => Some (_desired_quotes self (_mid_with_skew self target_price t))
  | None => None
  end.

(** Names for the intermediate lists of [cancellable_orders]. *)
Definition far_aways_of `{K : Constants} (self : SafeSpread) (bid_target ask_target : Q)
    (orders : list Order) : list Order :=
  List.filter
    (fun o => Qltb (cancel_if_away_by self) (closeness bid_target ask_target o)) orders.

Definition keep_of (s : Side) (far_aways orders : list Order) : list Order :=
  List.filter (fun o => Side_eqb (side o) s && negb (order_in o far_aways)) orders.

(** Ascending in the key: every element is no larger than all later ones. *)
Fixpoint ascending {X : Type} (f : X -> Q) (l : list X) : Prop :=
  match l with
  | [] => True
  | x :: rest => (forall y, In y rest -> f x <= f y) /\ ascending f rest
  end.

(** The resolution rule in the words of the specification: the snake_case
    name first, the camelCase name second, else the documented default. *)
Definition resolve {T : Type} (cfg : gmap string T) (snake camel : string) (default : T)
  : T :=
  match cfg !! snake with
  | Some v => v
  | None => match cfg !! camel with Some v => v | None => default end
  end.

Definition resolve_optional (cfg : gmap string Q) (snake camel : string) : option Q :=
  match cfg !! snake with
  | Some v => Some v
  | None => cfg !! camel
  end.

(** The engine the specification documents for a configuration. *)
Definition documented_engine (cfg : gmap string Q) : SafeSpread :=
  {| target_spread := resolve cfg "target_spread" "targetSpread" (3 # 100);
     half_spread_override :=
       resolve_optional cfg "half_spread_override" "halfSpreadOverride";
     order_size := resolve cfg "order_size" "orderSize" 10;
     max_bids := py_int (resolve cfg "max_bids" "maxBids" 2);
     max_asks := py_int (resolve cfg "max_asks" "maxAsks" 2);
     cancel_if_away_by := resolve cfg "cancel_if_away_by" "cancelIfAwayBy" (2 # 100);
     max_inventory_per_token :=
       resolve cfg "max_inventory_per_token" "maxInventoryPerToken" 40;
     max_notional_per_side :=
       resolve cfg "max_notional_per_side" "maxNotionalPerSide" 120;
     skew_per_unit := resolve cfg "skew_per_unit" "skewPerUnit" (5 # 10000);
     min_place_size := resolve cfg "min_place_size" "minPlaceSize" (1 # 10);
     _balances := {[ A := 0; B := 0 ]};
     _free_collateral := 0 |}.

(** The engine of the documented defaults. *)
Definition default_engine : SafeSpread :=
  {| target_spread := 3 # 100;
     half_spread_override := None;
     order_size := 10;
     max_bids := 2;
     max_asks := 2;
     cancel_if_away_by := 2 # 100;
     max_inventory_per_token := 40;
     max_notional_per_side := 120;
     skew_per_unit := 5 # 10000;
     min_place_size := 1 # 10;
     _balances := {[ A := 0; B := 0 ]};
     _free_collateral := 0 |}.

(** The key names [__init__] looks at. *)
Definition recognized_keys : list string :=
  [ "target_spread"; "targetSpread"; "half_spread_override"; "halfSpreadOverride";
    "order_size"; "orderSize"; "max_bids"; "maxBids"; "max_asks"; "maxAsks";
    "cancel_if_away_by"; "cancelIfAwayBy";
    "max_inventory_per_token"; "maxInventoryPerToken";
    "max_notional_per_side"; "maxNotionalPerSide";
    "skew_per_unit"; "skewPerUnit"; "min_place_size"; "minPlaceSize" ]%string.

(** ** Concrete inputs *)

(** A spread of 0.04 around a target of 0.50 quotes 0.48 / 0.52. *)
Definition engine_spread_004 : SafeSpread :=
  SafeSpread_init {[ "target_spread"%string := 4 # 100 ]}.

(** The same with orders of 20 units. *)
Definition engine_big_orders : SafeSpread :=
  SafeSpread_init {[ "order_size"%string := 20; "target_spread"%string := 4 # 100 ]}.

(** The same with a single resting bid allowed. *)
Definition engine_one_bid : SafeSpread :=
  SafeSpread_init {[ "max_bids"%string := 1; "target_spread"%string := 4 # 100 ]}.

(** The default engine holding 39.5 units of token [A], half a unit below the
    inventory cap of 40. *)
Definition engine_long_A : SafeSpread :=
  set_context default_engine {[ A := 395 # 10; B := 0 ]} 100.

(** The default engine holding 55.004 units of token [B], 15.004 above the
    cap. *)
Definition engine_long_B : SafeSpread :=
  set_context default_engine {[ A := 0; B := 55004 # 1000 ]} 0.

Definition even_targets : Token -> Q := fun _ => 1 # 2.

(** No resting order, no inventory, 7.20288 of collateral: enough for
    15.006 units at 0.48. *)
Definition book_small_cash : OrderBook :=
  mkOrderBook [] (fun _ => 0) (720288 # 100000).

(** A resting BUY of 15 units at 0.48 and no collateral. *)
Definition book_no_cash : OrderBook :=
  mkOrderBook [mkOrder (48 # 100) 15 BUY A] (fun _ => 0) 0.

(** A BUY one tenth of a tick under the bid target 0.48. *)
Definition buy_0479 : Order := mkOrder (479 # 1000) 10 BUY A.

(** Three BUYs at distances 0.003, 0.001 and 0.18 from the bid target 0.48 and
    a SELL on the ask target. *)
Definition resting_orders : list Order :=
  [ mkOrder (477 # 1000) 10 BUY A; buy_0479; mkOrder (30 # 100) 10 BUY A;
    mkOrder (48 # 100) 10 SELL B ].

(** ** Vocabulary of the further properties *)

(** The half-spread [_desired_quotes] works with: the override if set, else
    half the target spread, and never less than one tick. *)
Definition effective_half `{K : Constants} (self : SafeSpread) : Q :=
  Qmax (match half_spread_override self with
        | Some h => h
        | None => target_spread self / 2
        end) MIN_TICK.

(** An order list of the pair of buy-token [t]: BUYs rest on [t], SELLs on
    its complement. *)
Definition pair_of (t : Token) (l : list Order) : Prop :=
  forall o, In o l ->
    match side o with
    | BUY => token o = t
    | SELL => token o = complement t
    end.

(** Two engines with the same ten configuration fields. *)
Definition same_configuration (a b : SafeSpread) : Prop :=
  target_spread a = target_spread b
  /\ half_spread_override a = half_spread_override b
  /\ order_size a = order_size b
  /\ max_bids a = max_bids b
  /\ max_asks a = max_asks b
  /\ cancel_if_away_by a = cancel_if_away_by b
  /\ max_inventory_per_token a = max_inventory_per_token b
  /\ max_notional_per_side a = max_notional_per_side b
  /\ skew_per_unit a = skew_per_unit b
  /\ min_place_size a = min_place_size b.

(** The orders of a list with a given side and token. *)
Definition on_side_token (s : Side) (t : Token) (l : list Order) : list Order :=
  List.filter (fun o => Side_eqb (side o) s && Token_eqb (token o) t) l.

(** No two orders of the list are equal by value. *)
Definition distinct_by_value (l : list Order) : Prop :=
  NoDup l /\ forall o o', In o l -> In o' l -> Order_eqb o o' = true -> o = o'.

(** The cap of a side. *)
Definition cap_of (self : SafeSpread) (s : Side) : Z :=
  match s with BUY => max_bids self | SELL => max_asks self end.

(** The smallest size either side may be placed with. *)
Definition floor_size `{K : Constants} (self : SafeSpread) : Q :=
  Qmax (min_place_size self) MIN_SIZE.

(** [x] occurs in [l] before an occurrence of [y]. *)
Fixpoint precedes {X : Type} (x y : X) (l : list X) : Prop :=
  match l with
  | [] => False
  | z :: rest => (z = x /\ In y rest) \/ precedes x y rest
  end.

(** The default engine with an empty balances dictionary. *)
Definition engine_no_balances : SafeSpread := set_context default_engine ∅ 0.

(** No resting order, ample inventory and collateral. *)
Definition book_more_cash : OrderBook :=
  mkOrderBook [] (fun _ => 100) 1000.

(** No resting order, no inventory, no collateral. *)
Definition book_empty : OrderBook :=
  mkOrderBook [] (fun _ => 0) 0.

(** A BUY on the bid target 0.48 and two BUYs at 0.479 of different sizes. *)
Definition buy_0479_small : Order := mkOrder (479 # 1000) 5 BUY A.

Definition same_price_orders : list Order :=
  [ mkOrder (48 # 100) 10 BUY A; buy_0479; buy_0479_small ].

(** An engine configured with a negative [max_bids]. *)
Definition engine_negative_cap : SafeSpread :=
  SafeSpread_init {[ "max_bids"%string := -1 # 1; "target_spread"%string := 4 # 100 ]}.

(** * Properties *)

(** ** Rounding *)

Module RoundFacts.

Lemma Qleb_true (x y : Q) : Qleb x y = true <-> x <= y.
Proof. apply Qle_bool_iff. Qed.

Lemma Qleb_false (x y : Q) : Qleb x y = false <-> y < x.
Proof.
  unfold Qleb. split; intros H.
  - apply Qnot_le_lt. intros Hle. apply Qle_bool_iff in Hle. congruence.
  - destruct (Qle_bool x y) eqn:E; [|reflexivity].
    apply Qle_bool_iff in E. exfalso. lra.
Qed.

Lemma Qltb_true (x y : Q) : Qltb x y = true <-> x < y.
Proof.
  unfold Qltb. rewrite negb_true_iff. apply (Qleb_false y x).
Qed.

Lemma Qltb_false (x y : Q) : Qltb x y = false <-> y <= x.
Proof.
  unfold Qltb. rewrite negb_false_iff. apply Qle_bool_iff.
Qed.

Lemma pow10_pos (d : nat) : 0 < pow10 d.
Proof.
  unfold pow10. change 0 with (inject_Z 0). rewrite <- Zlt_Qlt.
  apply Z.pow_pos_nonneg; lia.
Qed.

Lemma pow10_ge_1 (d : nat) : 1 <= pow10 d.
Proof.
  unfold pow10. change 1 with (inject_Z 1). rewrite <- Zle_Qle.
  assert (0 < 10 ^ Z.of_nat d)%Z by (apply Z.pow_pos_nonneg; lia). lia.
Qed.

(** The fractional part seen by [round_half_even]. *)
Lemma floor_frac (x : Q) :
  0 <= x - inject_Z (Qfloor x) /\ x - inject_Z (Qfloor x) < 1.
Proof.
  pose proof (Qfloor_le x) as Hl. pose proof (Qlt_floor x) as Hu.
  rewrite inject_Z_plus in Hu. change (inject_Z 1) with 1 in Hu. lra.
Qed.

Lemma round_half_even_cases (x : Q) :
  let f := Qfloor x in
  (round_half_even x = f /\ x - inject_Z f <= 1 # 2)
  \/ (round_half_even x = (f + 1)%Z /\ 1 # 2 <= x - inject_Z f).
Proof.
  intros f. unfold round_half_even. fold f.
  destruct (Qcompare (x - inject_Z f) (1 # 2)) eqn:E.
  - apply Qeq_alt in E. destruct (Z.even f); [left | right]; split; auto; lra.
  - apply Qlt_alt in E. left. split; auto; lra.
  - apply Qgt_alt in E. right. split; auto; lra.
Qed.

(** Rounding moves a number by at most one half. *)
Lemma round_half_even_near (x : Q) :
  x - (1 # 2) <= inject_Z (round_half_even x) <= x + (1 # 2).
Proof.
  pose proof (floor_frac x) as [H0 H1].
  destruct (round_half_even_cases x) as [[-> H] | [-> H]];
    [| rewrite inject_Z_plus; change (inject_Z 1) with 1]; lra.
Qed.

Lemma round_half_even_Z (n : Z) (x : Q) :
  x == inject_Z n -> round_half_even x = n.
Proof.
  intros Hx.
  assert (Hf : Qfloor x = n) by (rewrite Hx; apply Qfloor_Z).
  destruct (round_half_even_cases x) as [[-> _] | [_ H]]; [exact Hf|].
  rewrite Hf in H. lra.
Qed.

Lemma round_half_even_mono (x y : Q) :
  x <= y -> (round_half_even x <= round_half_even y)%Z.
Proof.
  intros Hxy.
  pose proof (Qfloor_resp_le x y Hxy) as Hf.
  pose proof (floor_frac x) as [Hx0 Hx1]. pose proof (floor_frac y) as [Hy0 Hy1].
  destruct (Z.eq_dec (Qfloor x) (Qfloor y)) as [Heq | Hne].
  - unfold round_half_even. rewrite Heq.
    assert (Hr : x - inject_Z (Qfloor y) <= y - inject_Z (Qfloor y)) by lra.
    destruct (Qcompare (x - inject_Z (Qfloor y)) (1 # 2)) eqn:Ex;
      destruct (Qcompare (y - inject_Z (Qfloor y)) (1 # 2)) eqn:Ey;
      first [apply Qeq_alt in Ex | apply Qlt_alt in Ex | apply Qgt_alt in Ex];
      first [apply Qeq_alt in Ey | apply Qlt_alt in Ey | apply Qgt_alt in Ey];
      try (exfalso; lra); destruct (Z.even (Qfloor y)); lia.
  - assert (Hlt : (Qfloor x + 1 <= Qfloor y)%Z) by lia.
    destruct (round_half_even_cases x) as [[-> _] | [-> _]];
      destruct (round_half_even_cases y) as [[-> _] | [-> _]]; lia.
Qed.

Lemma round_half_even_proper (x y : Q) :
  x == y -> round_half_even x = round_half_even y.
Proof.
  intros H. apply Z.le_antisymm; apply round_half_even_mono; lra.
Qed.

Lemma py_round_on_grid (x : Q) (d : nat) : on_grid d (py_round x d).
Proof. exists (round_half_even (x * pow10 d)). reflexivity. Qed.

Lemma py_round_mono (x y : Q) (d : nat) : x <= y -> py_round x d <= py_round y d.
Proof.
  intros H. unfold py_round. pose proof (pow10_pos d) as Hp.
  apply Qmult_le_compat_r.
  - rewrite <- Zle_Qle. apply round_half_even_mono.
    apply Qmult_le_compat_r; lra.
  - apply Qlt_le_weak, Qinv_lt_0_compat, Hp.
Qed.

Lemma py_round_fix (x : Q) (d : nat) : on_grid d x -> py_round x d == x.
Proof.
  intros [k Hk]. unfold py_round. pose proof (pow10_pos d) as Hp.
  rewrite (round_half_even_Z k).
  - symmetry. exact Hk.
  - rewrite Hk. field. lra.
Qed.

Lemma py_round_proper (x y : Q) (d : nat) : x == y -> py_round x d == py_round y d.
Proof.
  intros H. apply Qle_antisym; apply py_round_mono; lra.
Qed.

(** Rounding to [d] decimals moves a number by at most half a unit of the
    last decimal. *)
Lemma py_round_near (x : Q) (d : nat) :
  x - (1 # 2) / pow10 d <= py_round x d <= x + (1 # 2) / pow10 d.
Proof.
  unfold py_round. pose proof (pow10_pos d) as Hp.
  pose proof (round_half_even_near (x * pow10 d)) as [Hl Hu].
  set (r := inject_Z (round_half_even (x * pow10 d))) in *.
  assert (Hi : 0 < / pow10 d) by (apply Qinv_lt_0_compat, Hp).
  assert (E1 : x - (1 # 2) / pow10 d == (x * pow10 d - (1 # 2)) * / pow10 d)
    by (field; lra).
  assert (E2 : x + (1 # 2) / pow10 d == (x * pow10 d + (1 # 2)) * / pow10 d)
    by (field; lra).
  rewrite E1, E2. unfold Qdiv.
  split; apply Qmult_le_compat_r; lra.
Qed.

End RoundFacts.
Module PriceFacts.
Import RoundFacts.

Ltac minmax :=
  repeat match goal with
  | |- context [Qmax ?a ?b] =>
      let H := fresh "Hmax" in let m := fresh "m" in
      pose proof (Q.max_spec a b) as H; set (m := Qmax a b) in *; clearbody m
  | |- context [Qmin ?a ?b] =>
      let H := fresh "Hmin" in let m := fresh "m" in
      pose proof (Q.min_spec a b) as H; set (m := Qmin a b) in *; clearbody m
  | _ : context [Qmax ?a ?b] |- _ =>
      let H := fresh "Hmax" in let m := fresh "m" in
      pose proof (Q.max_spec a b) as H; set (m := Qmax a b) in *; clearbody m
  | _ : context [Qmin ?a ?b] |- _ =>
      let H := fresh "Hmin" in let m := fresh "m" in
      pose proof (Q.min_spec a b) as H; set (m := Qmin a b) in *; clearbody m
  end;
  repeat match goal with
  | H : _ /\ _ \/ _ /\ _ |- _ => destruct H as [[? ?] | [? ?]]
  end;
  try lra.

Section WithConstants.
Context `{K : Constants}.

Lemma one_minus_tick_on_grid :
  constants_ok -> on_grid MAX_DECIMALS (1 - MIN_TICK).
Proof.
  intros (_ & _ & [k Hk]). exists (10 ^ Z.of_nat MAX_DECIMALS - k)%Z.
  pose proof (pow10_pos MAX_DECIMALS) as Hp.
  unfold Z.sub. rewrite inject_Z_plus, inject_Z_opp. fold (pow10 MAX_DECIMALS).
  rewrite Hk. field. lra.
Qed.

Lemma clamp_price_range (x : Q) :
  constants_ok ->
  MIN_TICK <= Qmax MIN_TICK (Qmin (1 - MIN_TICK) x) <= 1 - MIN_TICK.
Proof. intros (H0 & H1 & _). minmax. Qed.

Lemma round_price_range (x : Q) :
  constants_ok -> MIN_TICK <= _round_price x <= 1 - MIN_TICK.
Proof.
  intros Hok. pose proof (clamp_price_range x Hok) as [Hl Hu].
  pose proof Hok as (_ & _ & Hg).
  pose proof (py_round_fix _ _ Hg) as E1.
  pose proof (py_round_fix _ _ (one_minus_tick_on_grid Hok)) as E2.
  pose proof (py_round_mono _ _ MAX_DECIMALS Hl).
  pose proof (py_round_mono _ _ MAX_DECIMALS Hu).
  unfold _round_price. lra.
Qed.

Lemma round_price_mono (x y : Q) : x <= y -> _round_price x <= _round_price y.
Proof.
  intros H. unfold _round_price. apply py_round_mono. minmax.
Qed.

(** A price that is already a tick-aligned legal price is left alone. *)
Lemma round_price_fix (x : Q) :
  MIN_TICK <= x <= 1 - MIN_TICK -> on_grid MAX_DECIMALS x -> _round_price x == x.
Proof.
  intros [Hl Hu] Hg. unfold _round_price.
  pose proof (py_round_fix x MAX_DECIMALS Hg) as E.
  assert (E' : Qmax MIN_TICK (Qmin (1 - MIN_TICK) x) == x) by minmax.
  pose proof (py_round_proper _ _ MAX_DECIMALS E'). lra.
Qed.

End WithConstants.
End PriceFacts.

(** ** Price normalisation and the quote pair *)

Module QuoteFacts.
Import RoundFacts PriceFacts.

Lemma on_grid_proper (d : nat) (x y : Q) : x == y -> on_grid d x -> on_grid d y.
Proof. intros E [k Hk]. exists k. lra. Qed.

Lemma on_grid_plus (d : nat) (x y : Q) : on_grid d x -> on_grid d y -> on_grid d (x + y).
Proof.
  intros [a Ha] [b Hb]. exists (a + b)%Z. pose proof (pow10_pos d).
  rewrite inject_Z_plus, Ha, Hb. field. lra.
Qed.

Lemma on_grid_min (d : nat) (x y : Q) : on_grid d x -> on_grid d y -> on_grid d (Qmin x y).
Proof.
  intros Hx Hy. destruct (Q.min_spec x y) as [[_ E] | [_ E]];
    eapply on_grid_proper; try (symmetry; exact E); assumption.
Qed.

Lemma on_grid_max (d : nat) (x y : Q) : on_grid d x -> on_grid d y -> on_grid d (Qmax x y).
Proof.
  intros Hx Hy. destruct (Q.max_spec x y) as [[_ E] | [_ E]];
    eapply on_grid_proper; try (symmetry; exact E); assumption.
Qed.

Lemma reference_constants_ok : @constants_ok reference_constants.
Proof.
  unfold constants_ok; simpl. repeat split; try reflexivity.
  exists 1%Z. reflexivity.
Qed.

Section WithConstants.
Context `{K : Constants}.

(** C6.  For every input [x], [_round_price x] lies in
    [[MIN_TICK, 1 - MIN_TICK]] and has at most [MAX_DECIMALS] fractional
    digits, although the clamp comes before the rounding. *)
Theorem round_price_normalised (x : Q) :
  constants_ok ->
  MIN_TICK <= _round_price x <= 1 - MIN_TICK
  /\ on_grid MAX_DECIMALS (_round_price x).
Proof.
  intros Hok. split.
  - apply round_price_range, Hok.
  - apply py_round_on_grid.
Qed.

(** The bid of a midpoint that is not above the upper bound stays strictly
    below that bound. *)
Lemma bid_below_upper_bound (self : SafeSpread) (mid : Q) :
  constants_ok -> mid <= 1 - MIN_TICK ->
  fst (_desired_quotes self mid) < 1 - MIN_TICK.
Proof.
  intros Hok Hmid. pose proof Hok as (H0 & H1 & Hg).
  unfold _desired_quotes; cbn [fst].
  set (half := match half_spread_override self with
               | Some h => h | None => target_spread self / 2 end).
  set (g := Qmax MIN_TICK (1 - MIN_TICK - MIN_TICK)).
  assert (Hgg : on_grid MAX_DECIMALS g).
  { apply on_grid_max; [exact Hg|].
    apply (on_grid_proper _ (1 - MIN_TICK + (0 - MIN_TICK))); [ring|].
    destruct Hg as [k Hk]. pose proof (one_minus_tick_on_grid Hok) as [j Hj].
    exists (j + - k)%Z. pose proof (pow10_pos MAX_DECIMALS).
    rewrite inject_Z_plus, inject_Z_opp.
    assert (E : (inject_Z j + - inject_Z k) / pow10 MAX_DECIMALS
                == inject_Z j / pow10 MAX_DECIMALS - inject_Z k / pow10 MAX_DECIMALS)
      by (field; lra).
    lra. }
  assert (Hle : Qmax MIN_TICK (Qmin (1 - MIN_TICK) (mid - Qmax half MIN_TICK)) <= g)
    by (unfold g; minmax).
  pose proof (py_round_mono _ _ MAX_DECIMALS Hle) as Hm.
  pose proof (py_round_fix g MAX_DECIMALS Hgg) as Ef.
  assert (g < 1 - MIN_TICK) by (unfold g; minmax).
  unfold _round_price. lra.
Qed.

(** Whenever the bid is below the upper bound, the ask returned with it is
    strictly above the bid: the guard repairs every collapse there. *)
Lemma ask_above_bid_below_bound (self : SafeSpread) (mid : Q) :
  constants_ok ->
  fst (_desired_quotes self mid) < 1 - MIN_TICK ->
  fst (_desired_quotes self mid) < snd (_desired_quotes self mid).
Proof.
  intros Hok. pose proof Hok as (H0 & H1 & Hg).
  unfold _desired_quotes; cbn [fst snd].
  set (half := Qmax _ MIN_TICK).
  set (bid := _round_price (mid - half)).
  set (ask := _round_price (mid + half)).
  intros Hb.
  destruct (Qleb ask bid) eqn:E.
  - pose proof (round_price_range (mid - half) Hok) as [Hbl _]. fold bid in Hbl.
    assert (Hbg : on_grid MAX_DECIMALS bid) by apply py_round_on_grid.
    set (y := Qmin (1 - MIN_TICK) (bid + MIN_TICK)).
    assert (Hy : on_grid MAX_DECIMALS y).
    { apply on_grid_min; [apply one_minus_tick_on_grid, Hok|].
      apply on_grid_plus; assumption. }
    assert (Ey : Qmax MIN_TICK (Qmin (1 - MIN_TICK) (bid + MIN_TICK)) == y)
      by (unfold y; minmax).
    pose proof (py_round_proper _ _ MAX_DECIMALS Ey) as Er.
    pose proof (py_round_fix y MAX_DECIMALS Hy) as Ef.
    assert (bid < y) by (unfold y; minmax).
    cbv iota. unfold _round_price. lra.
  - apply Qleb_false in E. exact E.
Qed.

(** The quotes [cancellable_orders] and [new_orders] work with, computed from
    the skewed midpoint, never cross. *)
Lemma reachable_quotes_not_crossed (self : SafeSpread) (target_price : Q) (t : Token) :
  constants_ok ->
  let q := _desired_quotes self (_mid_with_skew self target_price t) in
  fst q < snd q.
Proof.
  intros Hok q. subst q. apply ask_above_bid_below_bound; [exact Hok|].
  apply bid_below_upper_bound; [exact Hok|].
  unfold _mid_with_skew. apply round_price_range, Hok.
Qed.

End WithConstants.

(** For every midpoint that is not above [1 - MIN_TICK] and every configured
    half-spread, the pair returned by [_desired_quotes] has [ask > bid]. *)
Theorem desired_quotes_not_crossed `{K : Constants} (self : SafeSpread) (mid : Q) :
  constants_ok -> mid <= 1 - MIN_TICK ->
  fst (_desired_quotes self mid) < snd (_desired_quotes self mid).
Proof.
  intros Hok Hmid. apply ask_above_bid_below_bound; [exact Hok|].
  apply bid_below_upper_bound; assumption.
Qed.

End QuoteFacts.

(** ** The placement decision *)

Module PlacementFacts.
Import RoundFacts PriceFacts QuoteFacts.

Section WithConstants.
Context `{K : Constants}.

Lemma has_near_true (orders : list Order) (s : Side) (p : Q) (o : Order) :
  In o orders -> side o = s -> Qabs (effective_price o - p) <= MIN_TICK ->
  has_near orders s p = true.
Proof.
  intros Hin Hs Hclose. induction orders as [|x rest IH]; [destruct Hin|].
  cbn [has_near]. destruct Hin as [-> | Hin].
  - rewrite Hs. replace (Side_eqb s s) with true by (destruct s; reflexivity).
    unfold effective_price in Hclose. rewrite Hs in Hclose.
    apply Qleb_true in Hclose. cbn [negb]. cbv iota.
    destruct s; cbv iota in Hclose |- *; rewrite Hclose; reflexivity.
  - destruct (negb (Side_eqb (side x) s)); [apply IH, Hin|].
    match goal with |- (if ?c then _ else _) = _ => destruct c end;
      [reflexivity | apply IH, Hin].
Qed.

(** The two halves of [new_orders] only ever emit their own side. *)
Lemma new_ask_sides (self : SafeSpread) orders tb ask_target bt (n : Order) :
  In n (new_ask self orders tb ask_target bt) -> side n = SELL.
Proof.
  unfold new_ask.
  repeat match goal with |- context [if ?c then _ else _] => destruct c end;
    simpl; intros H; try tauto.
  destruct H as [<- | []]. reflexivity.
Qed.

Lemma new_bid_sides (self : SafeSpread) orders c bid_target bt l (n : Order) :
  new_bid self orders c bid_target bt = Some l -> In n l -> side n = BUY.
Proof.
  unfold new_bid.
  destruct (negb (has_near orders BUY bid_target) && _can_place_bid self c bid_target bt).
  - destruct (_bid_size self c bid_target bt) as [sz|]; [|discriminate].
    destruct (Qleb _ sz); intros [= <-]; simpl; [|tauto].
    intros [<- | []]. reflexivity.
  - intros [= <-]. simpl. tauto.
Qed.

Lemma new_orders_unfold (self : SafeSpread) orders c tb tp bt :
  new_orders self orders c tb tp bt =
  let q := _desired_quotes self (_mid_with_skew self tp bt) in
  match new_bid self orders c (fst q) bt with
  | None => None
  | Some bids => Some (new_ask self orders tb (snd q) bt ++ bids)
  end.
Proof.
  unfold new_orders. destruct (_desired_quotes self (_mid_with_skew self tp bt)).
  reflexivity.
Qed.

(** The bid target is a normalised price. *)
Lemma bid_target_range (self : SafeSpread) (mid : Q) :
  constants_ok ->
  MIN_TICK <= fst (_desired_quotes self mid) <= 1 - MIN_TICK.
Proof.
  intros Hok. unfold _desired_quotes; cbn [fst]. apply round_price_range, Hok.
Qed.

Lemma bid_size_defined (self : SafeSpread) (c p : Q) (bt : Token) :
  0 < p -> _bid_size self c p bt <> None.
Proof.
  intros Hp. unfold _bid_size.
  destruct (Qeqb p 0) eqn:E; [|discriminate].
  apply Qeq_bool_iff in E. exfalso. lra.
Qed.

Lemma new_bid_total (self : SafeSpread) orders c p bt :
  0 < p -> exists l, new_bid self orders c p bt = Some l.
Proof.
  intros Hp. unfold new_bid.
  destruct (negb (has_near orders BUY p) && _can_place_bid self c p bt); [|eauto].
  destruct (_bid_size self c p bt) eqn:E.
  - destruct (Qleb _ q); eauto.
  - exfalso. exact (bid_size_defined self c p bt Hp E).
Qed.

Lemma new_orders_total (self : SafeSpread) orders c tb tp bt :
  constants_ok -> exists l, new_orders self orders c tb tp bt = Some l.
Proof.
  intros Hok. rewrite new_orders_unfold. cbv zeta.
  pose proof (bid_target_range self (_mid_with_skew self tp bt) Hok) as [Hl _].
  destruct Hok as (H0 & _).
  destruct (new_bid_total self orders c
              (fst (_desired_quotes self (_mid_with_skew self tp bt))) bt) as [l ->];
    [lra | eauto].
Qed.

End WithConstants.

(** C10.  In every call of [_bid_size] and [_can_place_bid] reached from
    [new_orders] the price argument is the bid target, a value of
    [_round_price], hence at least [MIN_TICK > 0]: [_bid_size] does not
    divide by zero and [new_orders] returns a list. *)
Theorem bid_price_never_zero `{K : Constants} (self : SafeSpread) (orders : list Order)
    (collateral_balance token_balance target_price : Q) (buy_token : Token) :
  constants_ok ->
  let bid_target :=
    fst (_desired_quotes self (_mid_with_skew self target_price buy_token)) in
  MIN_TICK <= bid_target
  /\ 0 < bid_target
  /\ _bid_size self collateral_balance bid_target buy_token <> None
  /\ exists l,
       new_orders self orders collateral_balance token_balance target_price buy_token
       = Some l.
Proof.
  intros Hok bid_target.
  pose proof (bid_target_range self (_mid_with_skew self target_price buy_token) Hok)
    as [Hl _].
  fold bid_target in Hl. pose proof Hok as (H0 & _).
  assert (Hp : 0 < bid_target) by lra.
  repeat split; try assumption.
  - apply bid_size_defined, Hp.
  - apply new_orders_total, Hok.
Qed.

(** X26.  If some existing order on a side has its effective price strictly
    less than one tick from that side's target, [new_orders] places no order
    on that side. *)
Theorem near_duplicate_suppressed_strictly `{K : Constants} (self : SafeSpread)
    (orders : list Order) (collateral_balance token_balance target_price : Q)
    (buy_token : Token) (o : Order) :
  constants_ok ->
  In o orders ->
  Qabs (effective_price o - side_target self target_price buy_token (side o)) < MIN_TICK ->
  exists l,
    new_orders self orders collateral_balance token_balance target_price buy_token = Some l
    /\ forall n, In n l -> side n <> side o.
Proof.
  intros Hok Hin Hstrict.
  assert (Hnear : Qabs (effective_price o
                        - side_target self target_price buy_token (side o)) <= MIN_TICK)
    by (apply Qlt_le_weak, Hstrict).
  clear Hstrict.
  destruct (new_orders_total self orders collateral_balance token_balance target_price
              buy_token Hok) as [l Hl].
  exists l. split; [exact Hl|].
  rewrite new_orders_unfold in Hl. cbv zeta in Hl.
  unfold side_target in Hnear.
  set (q := _desired_quotes self (_mid_with_skew self target_price buy_token)) in *.
  clearbody q.
  destruct (new_bid self orders collateral_balance (fst q) buy_token) as [bids|] eqn:Eb;
    [|discriminate].
  injection Hl as <-. intros n Hn. apply in_app_or in Hn.
  destruct (side o) eqn:Es.
  - (* an existing BUY near the bid target *)
    pose proof (has_near_true orders BUY (fst q) o Hin Es) as Hh.
    unfold effective_price in Hh. rewrite Es in Hh.
    unfold effective_price in Hnear. rewrite Es in Hnear. specialize (Hh Hnear).
    destruct Hn as [Hn | Hn].
    + apply new_ask_sides in Hn. congruence.
    + unfold new_bid in Eb. rewrite Hh in Eb. simpl in Eb.
      injection Eb as <-. destruct Hn.
  - pose proof (has_near_true orders SELL (snd q) o Hin Es) as Hh.
    unfold effective_price in Hh. rewrite Es in Hh.
    unfold effective_price in Hnear. rewrite Es in Hnear. specialize (Hh Hnear).
    destruct Hn as [Hn | Hn].
    + unfold new_ask in Hn. rewrite Hh in Hn. simpl in Hn. destruct Hn.
    + apply new_bid_sides with (n := n) in Eb; [congruence | exact Hn].
Qed.

End PlacementFacts.

(** ** Sizing *)

Module SizingFacts.
Import RoundFacts PriceFacts QuoteFacts PlacementFacts.

Section WithConstants.
Context `{K : Constants}.

(** What a BUY emitted by [new_bid] looks like and which checks it passed. *)
Lemma new_bid_inv (self : SafeSpread) orders c p bt l (n : Order) :
  new_bid self orders c p bt = Some l -> In n l ->
  exists sz,
    n = mkOrder p sz BUY bt
    /\ _can_place_bid self c p bt = true
    /\ _bid_size self c p bt = Some sz
    /\ Qmax (min_place_size self) MIN_SIZE <= sz.
Proof.
  unfold new_bid.
  destruct (has_near orders BUY p); cbn [negb andb].
  { intros [= <-] []. }
  destruct (_can_place_bid self c p bt) eqn:Ec.
  2:{ intros [= <-] []. }
  destruct (_bid_size self c p bt) as [sz|] eqn:Es; [|discriminate].
  destruct (Qleb (Qmax (min_place_size self) MIN_SIZE) sz) eqn:Em.
  - intros [= <-] [<- | []]. exists sz. apply Qleb_true in Em. auto.
  - intros [= <-] [].
Qed.

Lemma can_place_bid_inv (self : SafeSpread) c p bt :
  _can_place_bid self c p bt = true ->
  p * Qmax (min_place_size self) MIN_SIZE <= c
  /\ p * order_size self <= max_notional_per_side self
  /\ holdings self bt < max_inventory_per_token self.
Proof.
  unfold _can_place_bid.
  destruct (Qltb c _) eqn:E1; [discriminate|].
  destruct (Qltb (max_notional_per_side self) _) eqn:E2; [discriminate|].
  destruct (Qleb (max_inventory_per_token self) _) eqn:E3; [discriminate|].
  intros _. apply Qltb_false in E1, E2. apply Qleb_false in E3. auto.
Qed.

(** The size before the final rounding, as [_bid_size] computes it. *)
Lemma bid_size_inv (self : SafeSpread) c p bt sz :
  _bid_size self c p bt = Some sz ->
  ~ p == 0
  /\ sz = py_round
            (_clamp
               (Qmin (Qmin (Qmin (order_size self) (c / p))
                           (max_notional_per_side self / p))
                     (Qmax 0 (max_inventory_per_token self - holdings self bt)))
               MIN_SIZE (inject_Z (10 ^ 9)))
            MAX_DECIMALS.
Proof.
  unfold _bid_size. destruct (Qeqb p 0) eqn:E; [discriminate|].
  intros [= <-]. split; [|reflexivity].
  apply Qeq_bool_neq, E.
Qed.

(** What a SELL emitted by [new_ask] looks like. *)
Lemma new_ask_inv (self : SafeSpread) orders tb ask_target bt (n : Order) :
  In n (new_ask self orders tb ask_target bt) ->
  n = mkOrder (_round_price (1 - ask_target))
              (_ask_size self tb (complement bt)) SELL (complement bt)
  /\ Qmax (min_place_size self) MIN_SIZE <= tb
  /\ Qmax (min_place_size self) MIN_SIZE <= _ask_size self tb (complement bt).
Proof.
  unfold new_ask.
  destruct (has_near orders SELL ask_target); cbn [negb andb]; [intros []|].
  destruct (_can_place_ask self tb) eqn:Ec; [|intros []].
  destruct (Qleb _ (_ask_size self tb (complement bt))) eqn:Em; [|intros []].
  intros [<- | []]. apply Qleb_true in Ec, Em. auto.
Qed.

Lemma ask_size_upper (self : SafeSpread) tb t :
  MIN_SIZE <= tb -> _ask_size self tb t <= py_round tb MAX_DECIMALS.
Proof.
  intros H. unfold _ask_size, _clamp. apply py_round_mono.
  destruct (Qltb _ _); minmax.
Qed.

Lemma ask_size_sells_excess (self : SafeSpread) tb t :
  max_inventory_per_token self < holdings self t ->
  py_round (Qmin (holdings self t - max_inventory_per_token self) tb) MAX_DECIMALS
  <= _ask_size self tb t.
Proof.
  intros H. unfold _ask_size, _clamp. apply py_round_mono.
  apply Qltb_true in H. rewrite H. minmax.
Qed.

End WithConstants.

(** What the sizing does keep.  [new_orders] returns no BUY when the holdings of the
    buy-token meet or exceed [max_inventory_per_token]; a BUY it returns has a
    size of at most [max(MIN_SIZE, headroom)] rounded to [MAX_DECIMALS]
    decimals, where [headroom = max(0, max_inventory_per_token - holdings)]:
    the lower clamp and the rounding are applied after the headroom. *)
Theorem buy_respects_inventory_cap `{K : Constants} (self : SafeSpread)
    (orders : list Order) (collateral_balance token_balance target_price : Q)
    (buy_token : Token) :
  constants_ok ->
  exists l,
    new_orders self orders collateral_balance token_balance target_price buy_token = Some l
    /\ forall n, In n l -> side n = BUY ->
         holdings self buy_token < max_inventory_per_token self
         /\ size n <=
            py_round
              (Qmax MIN_SIZE
                 (Qmax 0 (max_inventory_per_token self - holdings self buy_token)))
              MAX_DECIMALS.
Proof.
  intros Hok.
  destruct (new_orders_total self orders collateral_balance token_balance target_price
              buy_token Hok) as [l Hl].
  exists l. split; [exact Hl|]. intros n Hn Hside.
  rewrite new_orders_unfold in Hl. cbv zeta in Hl.
  destruct (new_bid _ _ _ _ _) as [bids|] eqn:Eb; [|discriminate].
  injection Hl as <-. apply in_app_or in Hn. destruct Hn as [Hn | Hn].
  { apply new_ask_sides in Hn. congruence. }
  destruct (new_bid_inv _ _ _ _ _ _ _ Eb Hn) as (sz & -> & Hc & Hs & _).
  apply can_place_bid_inv in Hc. destruct Hc as (_ & _ & Hinv).
  apply bid_size_inv in Hs. destruct Hs as [_ ->].
  split; [exact Hinv|]. cbn [size]. apply py_round_mono. unfold _clamp. minmax.
Qed.

(** What the ask sizing does keep.  A SELL is returned by [new_orders] only if the free
    balance is at least [max(min_place_size, MIN_SIZE)]; a returned SELL has
    size at least [max(min_place_size, MIN_SIZE)] and at most the free
    balance rounded to [MAX_DECIMALS] decimals; and when the holdings of the
    complement token exceed [max_inventory_per_token] the size is at least
    [min(holdings - max_inventory_per_token, free_balance)] rounded to
    [MAX_DECIMALS] decimals. *)
Theorem sell_size_bounds `{K : Constants} (self : SafeSpread)
    (orders : list Order) (collateral_balance token_balance target_price : Q)
    (buy_token : Token) :
  constants_ok ->
  exists l,
    new_orders self orders collateral_balance token_balance target_price buy_token = Some l
    /\ forall n, In n l -> side n = SELL ->
         let floor_size := Qmax (min_place_size self) MIN_SIZE in
         let inv := holdings self (complement buy_token) in
         floor_size <= token_balance
         /\ floor_size <= size n
         /\ size n <= py_round token_balance MAX_DECIMALS
         /\ (max_inventory_per_token self < inv ->
             py_round (Qmin (inv - max_inventory_per_token self) token_balance)
                      MAX_DECIMALS <= size n).
Proof.
  intros Hok.
  destruct (new_orders_total self orders collateral_balance token_balance target_price
              buy_token Hok) as [l Hl].
  exists l. split; [exact Hl|]. intros n Hn Hside.
  rewrite new_orders_unfold in Hl. cbv zeta in Hl.
  destruct (new_bid _ _ _ _ _) as [bids|] eqn:Eb; [|discriminate].
  injection Hl as <-. apply in_app_or in Hn. destruct Hn as [Hn | Hn].
  2:{ apply new_bid_sides with (n := n) in Eb; [congruence | exact Hn]. }
  apply new_ask_inv in Hn. destruct Hn as (-> & Hb & Hs). cbn [size].
  cbv zeta. repeat split; try assumption.
  - apply ask_size_upper. revert Hb. minmax.
  - apply ask_size_sells_excess.
Qed.

End SizingFacts.

(** ** Collateral across one cycle *)

Module CollateralFacts.
Import RoundFacts PriceFacts QuoteFacts PlacementFacts SizingFacts.

Lemma fold_left_Qplus_acc (l : list Q) (a : Q) :
  fold_left Qplus l a == a + fold_left Qplus l 0.
Proof.
  revert a. induction l as [|x l IH]; intros a; simpl; [ring|].
  rewrite (IH (a + x)), (IH (0 + x)). ring.
Qed.

Lemma py_sum_cons (x : Q) (l : list Q) : py_sum (x :: l) == x + py_sum l.
Proof.
  unfold py_sum. simpl. rewrite fold_left_Qplus_acc. ring.
Qed.

Lemma buy_notional_nil : buy_notional [] == 0.
Proof. reflexivity. Qed.

Lemma buy_notional_cons (o : Order) (l : list Order) :
  buy_notional (o :: l) ==
  (match side o with BUY => size o * price o | SELL => 0 end) + buy_notional l.
Proof.
  unfold buy_notional. simpl. destruct (side o); simpl.
  - apply py_sum_cons.
  - ring.
Qed.

Lemma buy_notional_app (l1 l2 : list Order) :
  buy_notional (l1 ++ l2) == buy_notional l1 + buy_notional l2.
Proof.
  induction l1 as [|o l1 IH]; simpl.
  - rewrite buy_notional_nil. ring.
  - rewrite !buy_notional_cons, IH. ring.
Qed.

Lemma buy_notional_sells (l : list Order) :
  (forall n, In n l -> side n = SELL) -> buy_notional l == 0.
Proof.
  induction l as [|o l IH]; intros H; [reflexivity|].
  rewrite buy_notional_cons, (H o (or_introl eq_refl)), IH; [ring|].
  intros n Hn. apply H. right. exact Hn.
Qed.

Section WithConstants.
Context `{K : Constants}.

Lemma half_unit_nonneg : 0 <= half_unit.
Proof.
  unfold half_unit. pose proof (pow10_pos MAX_DECIMALS) as Hpw.
  apply Qlt_le_weak, Qlt_shift_div_l; lra.
Qed.

(** One placement call: the BUY notional it adds is zero, or exceeds the
    collateral it was given by at most half a unit of the last decimal. *)
Lemma new_orders_notional (self : SafeSpread) orders c tb tp bt l :
  constants_ok ->
  new_orders self orders c tb tp bt = Some l ->
  buy_notional l == 0 \/ buy_notional l <= c + half_unit.
Proof.
  intros Hok Hl. rewrite new_orders_unfold in Hl. cbv zeta in Hl.
  pose proof (bid_target_range self (_mid_with_skew self tp bt) Hok) as [Hpl Hpu].
  set (p := fst (_desired_quotes self (_mid_with_skew self tp bt))) in *.
  destruct (new_bid self orders c p bt) as [bids|] eqn:Eb; [|discriminate].
  injection Hl as <-.
  assert (Hasks : buy_notional (new_ask self orders tb
                    (snd (_desired_quotes self (_mid_with_skew self tp bt))) bt) == 0).
  { apply buy_notional_sells. intros n Hn. eapply new_ask_sides, Hn. }
  rewrite buy_notional_app, Hasks.
  destruct bids as [|b bids'].
  { left. rewrite buy_notional_nil. ring. }
  right.
  destruct (new_bid_inv _ _ _ _ _ _ b Eb (or_introl eq_refl)) as (sz & Hb & Hc & Hs & _).
  assert (bids' = []) as ->.
  { unfold new_bid in Eb.
    destruct (_ && _) in Eb; [|discriminate].
    destruct (_bid_size self c p bt); [|discriminate].
    destruct (Qleb _ _) in Eb; congruence. }
  rewrite buy_notional_cons, buy_notional_nil, Hb. cbn [side size price].
  apply can_place_bid_inv in Hc. destruct Hc as (Hcash & _ & _).
  apply bid_size_inv in Hs. destruct Hs as [_ Hsz].
  pose proof Hok as (H0 & H1 & _).
  assert (Hp : 0 < p) by lra.
  (* the size before rounding is covered by the collateral *)
  assert (Hms : MIN_SIZE <= c / p).
  { apply Qle_shift_div_l; [exact Hp|].
    assert (MIN_SIZE * p <= p * Qmax (min_place_size self) MIN_SIZE).
    { rewrite (Qmult_comm MIN_SIZE p). apply Qmult_le_l; [exact Hp|]. minmax. }
    lra. }
  assert (Hpre : _clamp
               (Qmin (Qmin (Qmin (order_size self) (c / p))
                           (max_notional_per_side self / p))
                     (Qmax 0 (max_inventory_per_token self - holdings self bt)))
               MIN_SIZE (inject_Z (10 ^ 9)) <= c / p)
    by (unfold _clamp; minmax).
  pose proof (py_round_mono _ _ MAX_DECIMALS Hpre) as Hr.
  pose proof (py_round_near (c / p) MAX_DECIMALS) as [_ Hn].
  rewrite <- Hsz in Hr. change ((1 # 2) / pow10 MAX_DECIMALS) with half_unit in Hn.
  assert (Hsz' : sz <= c / p + half_unit) by lra.
  assert (Hmul : sz * p <= (c / p + half_unit) * p)
    by (apply Qmult_le_compat_r; lra).
  assert (E : (c / p + half_unit) * p == c + half_unit * p) by (field; lra).
  pose proof half_unit_nonneg as Hh.
  assert (p * half_unit <= 1 * half_unit) by (apply Qmult_le_compat_r; lra).
  lra.
Qed.

(** The loop invariant: what the remaining iterations add is covered by the
    running free collateral, up to the rounding of the last BUY size. *)
Lemma placement_loop_notional (mm : SafeSpread) (bto : Token -> list Order)
    (ftb tp : Token -> Q) (tokens : list Token) :
  constants_ok ->
  forall (c : Q) (acc : list Order) (c' : Q) (place : list Order),
    placement_loop mm bto ftb tp tokens c acc = Some (c', place) ->
    exists added,
      place = acc ++ added
      /\ (buy_notional added == 0 \/ buy_notional added <= c + half_unit).
Proof.
  intros Hok. induction tokens as [|t rest IH]; intros c acc c' place Hrun.
  - simpl in Hrun. injection Hrun as _ <-. exists []. split.
    + symmetry. apply app_nil_r.
    + left. reflexivity.
  - cbn [placement_loop] in Hrun. cbv zeta in Hrun.
    destruct (new_orders mm (bto t) c (ftb (complement t)) (tp t) t) as [new|] eqn:En;
      [|discriminate].
    apply IH in Hrun. destruct Hrun as (added & -> & Hadd).
    exists (new ++ added). split; [symmetry; apply app_assoc|].
    pose proof (new_orders_notional _ _ _ _ _ _ _ Hok En) as Hnew.
    rewrite buy_notional_app.
    destruct Hnew as [Hnew | Hnew], Hadd as [Hadd | Hadd]; [left | right ..]; lra.
Qed.

Lemma placement_loop_total (mm : SafeSpread) (bto : Token -> list Order)
    (ftb tp : Token -> Q) (tokens : list Token) :
  constants_ok ->
  forall (c : Q) (acc : list Order),
    exists r, placement_loop mm bto ftb tp tokens c acc = Some r.
Proof.
  intros Hok. induction tokens as [|t rest IH]; intros c acc; simpl; [eauto|].
  destruct (new_orders_total mm (bto t) c (ftb (complement t)) (tp t) t Hok) as [new ->].
  apply IH.
Qed.

End WithConstants.

(** How far a cycle can overspend.  One invocation of [get_orders] returns a place list
    whose BUYs have a total notional (price x size) of at most the free
    collateral available at cycle start (total collateral minus the collateral
    locked by the BUYs that survive cancellation, taken as zero when that
    difference is negative) plus half a unit of the last size decimal: each
    pair's new BUY notional is deducted from the running free collateral
    before the next pair's placement call, and a BUY size is rounded to the
    nearest multiple of [10 ** -MAX_DECIMALS]. *)
Theorem cycle_buy_notional_bounded `{K : Constants} (mm : SafeSpread) (ob : OrderBook)
    (target_prices : Token -> Q) :
  constants_ok ->
  exists mm' orders_to_cancel orders_to_place,
    get_orders mm ob target_prices = Some (mm', (orders_to_cancel, orders_to_place))
    /\ buy_notional orders_to_place
       <= Qmax 0 (free_collateral_at_start ob orders_to_cancel) + half_unit.
Proof.
  intros Hok. unfold get_orders. cbv zeta.
  set (bto := fun t => _orders_by_corresponding_buy_token (orders ob) t).
  set (cancel := cancel_phase mm bto target_prices).
  set (c0 := free_collateral_at_start ob cancel).
  set (mm' := set_context mm _ c0).
  set (ftb := fun t => balances ob t - _).
  destruct (placement_loop_total mm' bto ftb target_prices all_tokens Hok c0 [])
    as [[c' place] Hrun].
  rewrite Hrun. exists mm', cancel, place. split; [reflexivity|].
  apply placement_loop_notional in Hrun; [|exact Hok].
  destruct Hrun as (added & -> & Hadd). cbn [app].
  pose proof half_unit_nonneg. subst mm' c0.
  destruct Hadd as [Hadd | Hadd]; minmax.
Qed.

End CollateralFacts.

(** ** The cancellation decision *)

Module SortFacts.
Import RoundFacts.

Section Sorting.
Context {X : Type} (f : X -> Q).

Lemma insert_by_key_In (x a : X) (l : list X) :
  In a (insert_by_key f x l) <-> a = x \/ In a l.
Proof.
  induction l as [|y l IH]; simpl.
  - intuition.
  - destruct (Qleb (f x) (f y)); simpl; [intuition congruence|].
    rewrite IH. intuition.
Qed.

Lemma sort_by_key_In (a : X) (l : list X) :
  In a (sort_by_key f l) <-> In a l.
Proof.
  induction l as [|x l IH]; simpl; [tauto|].
  rewrite insert_by_key_In, IH. intuition.
Qed.

Lemma insert_by_key_filter_length (g : X -> bool) (x : X) (l : list X) :
  length (List.filter g (insert_by_key f x l)) = length (List.filter g (x :: l)).
Proof.
  induction l as [|y l IH]; [reflexivity|].
  cbn [insert_by_key]. destruct (Qleb (f x) (f y)); [reflexivity|].
  cbn [List.filter] in *. destruct (g y), (g x); cbn [length] in *; lia.
Qed.

(** Sorting keeps the number of elements that satisfy a test. *)
Lemma sort_by_key_filter_length (g : X -> bool) (l : list X) :
  length (List.filter g (sort_by_key f l)) = length (List.filter g l).
Proof.
  induction l as [|x l IH]; [reflexivity|].
  cbn [sort_by_key fold_right]. rewrite insert_by_key_filter_length.
  fold (sort_by_key f l). cbn [List.filter]. destruct (g x); cbn [length]; lia.
Qed.

Lemma insert_by_key_ascending (x : X) (l : list X) :
  ascending f l -> ascending f (insert_by_key f x l).
Proof.
  induction l as [|y l IH]; intros Hs.
  - simpl. split; [intros ? []|exact I].
  - cbn [insert_by_key]. destruct Hs as [Hy Hl].
    destruct (Qleb (f x) (f y)) eqn:E.
    + apply Qleb_true in E. split; [|split; assumption].
      intros z [<- | Hz]; [exact E|].
      specialize (Hy z Hz). lra.
    + apply Qleb_false in E. split; [|apply IH, Hl].
      intros z Hz. apply insert_by_key_In in Hz. destruct Hz as [-> | Hz].
      * lra.
      * apply Hy, Hz.
Qed.

Lemma sort_by_key_ascending (l : list X) : ascending f (sort_by_key f l).
Proof.
  induction l as [|x l IH]; [exact I|].
  apply insert_by_key_ascending, IH.
Qed.

(** In an ascending list the first [n] elements are no farther than the
    rest. *)
Lemma ascending_firstn_skipn (l : list X) (n : nat) (a b : X) :
  ascending f l -> In a (firstn n l) -> In b (skipn n l) -> f a <= f b.
Proof.
  revert n. induction l as [|x l IH]; intros n Hs Ha Hb.
  - rewrite firstn_nil in Ha. destruct Ha.
  - destruct n as [|n]; [destruct Ha|].
    cbn [firstn skipn] in *. destruct Hs as [Hx Hl].
    destruct Ha as [<- | Ha].
    + apply Hx. rewrite <- (firstn_skipn n l). apply in_or_app. right. exact Hb.
    + eapply IH; eassumption.
Qed.

End Sorting.

Lemma filter_length_mono {X : Type} (p q : X -> bool) (l : list X) :
  (forall x, In x l -> p x = true -> q x = true) ->
  (length (List.filter p l) <= length (List.filter q l))%nat.
Proof.
  induction l as [|x l IH]; intros H; [reflexivity|].
  cbn [List.filter].
  assert (IH' : (length (List.filter p l) <= length (List.filter q l))%nat).
  { apply IH. intros y Hy. apply H. right. exact Hy. }
  destruct (p x) eqn:Ep.
  - rewrite (H x (or_introl eq_refl) Ep). cbn [length]. lia.
  - destruct (q x); cbn [length]; lia.
Qed.

Lemma filter_comp {X : Type} (p q : X -> bool) (l : list X) :
  List.filter p (List.filter q l) = List.filter (fun x => q x && p x) l.
Proof.
  induction l as [|x l IH]; [reflexivity|].
  cbn [List.filter]. destruct (q x); cbn [andb List.filter]; rewrite IH; reflexivity.
Qed.

Lemma filter_none {X : Type} (p : X -> bool) (l : list X) :
  (forall x, In x l -> p x = false) -> List.filter p l = [].
Proof.
  induction l as [|x l IH]; intros H; [reflexivity|].
  cbn [List.filter]. rewrite (H x (or_introl eq_refl)).
  apply IH. intros y Hy. apply H. right. exact Hy.
Qed.

(** [excess] with a non-negative cap drops the first [n] elements. *)
Lemma excess_skipn {X : Type} (l : list X) (n : Z) :
  (0 <= n)%Z -> excess l n = skipn (Z.to_nat n) l.
Proof.
  intros Hn. unfold excess, py_slice_from.
  destruct (n <? Z.of_nat (length l))%Z eqn:E.
  - apply Z.leb_le in Hn. rewrite Hn. reflexivity.
  - apply Z.ltb_ge in E. symmetry. apply skipn_all2. lia.
Qed.

End SortFacts.

Module CancelFacts.
Import RoundFacts SortFacts.

Lemma Order_eqb_refl (o : Order) : Order_eqb o o = true.
Proof.
  unfold Order_eqb, Qeqb. rewrite !Qeq_bool_refl.
  destruct (side o), (token o); reflexivity.
Qed.

Lemma order_in_In (o : Order) (l : list Order) : In o l -> order_in o l = true.
Proof.
  intros H. apply existsb_exists. exists o. split; [exact H | apply Order_eqb_refl].
Qed.

(** Membership by value is monotone in the list. *)
Lemma order_in_incl (o : Order) (l1 l2 : list Order) :
  (forall x, In x l1 -> In x l2) -> order_in o l2 = false -> order_in o l1 = false.
Proof.
  intros Hincl H2. destruct (order_in o l1) eqn:E1; [|reflexivity].
  apply existsb_exists in E1. destruct E1 as (x & Hx & Heq).
  assert (order_in o l2 = true) by (apply existsb_exists; exists x; auto).
  congruence.
Qed.

Lemma deduce_buy_token_none (orders : list Order) :
  deduce_buy_token orders = None -> orders = [].
Proof.
  destruct orders as [|o rest]; [reflexivity|].
  unfold deduce_buy_token. cbn [first_buy_token first_sell_complement].
  destruct (side o); cbn [Side_eqb]; [discriminate|].
  destruct (first_buy_token rest); discriminate.
Qed.

Section WithConstants.
Context `{K : Constants}.

Lemma cancellable_orders_unfold (self : SafeSpread) (orders : list Order) (tp : Q)
    (t : Token) :
  deduce_buy_token orders = Some t ->
  cancellable_orders self orders tp =
  let q := _desired_quotes self (_mid_with_skew self tp t) in
  let far := far_aways_of self (fst q) (snd q) orders in
  far
  ++ excess (sort_by_key (closeness (fst q) (snd q)) (keep_of BUY far orders))
            (max_bids self)
  ++ excess (sort_by_key (closeness (fst q) (snd q)) (keep_of SELL far orders))
            (max_asks self).
Proof.
  intros Ht. unfold cancellable_orders.
  destruct orders as [|o rest]; [discriminate|].
  rewrite Ht. destruct (_desired_quotes self (_mid_with_skew self tp t)).
  reflexivity.
Qed.

End WithConstants.

(** The ranking of a side holds orders of that side only. *)
Lemma ranked_side (key : Order -> Q) (orders far : list Order) (s : Side) (x : Order) :
  In x (sort_by_key key (keep_of s far orders)) -> side x = s.
Proof.
  intros Hx. apply sort_by_key_In in Hx. unfold keep_of in Hx.
  apply filter_In in Hx. destruct Hx as [_ Hx]. apply andb_prop in Hx.
  destruct Hx as [Hx _]. destruct (side x), s; (reflexivity || discriminate).
Qed.

(** The ranking step, for one side [s] with cap [n], against any
    cancellation list that contains the far orders and the tail of the
    ranking. *)
Section Ranking.
Variables (key : Order -> Q) (orders far cancel : list Order) (s : Side) (n : nat).

Let ranked : list Order := sort_by_key key (keep_of s far orders).

Hypothesis far_cancelled : forall x, In x far -> In x cancel.
Hypothesis tail_cancelled : forall x, In x (skipn n ranked) -> In x cancel.

Lemma survivors_count_le :
  (count_side s (List.filter (fun o => negb (order_in o cancel)) orders) <= n)%nat.
Proof.
  unfold count_side. rewrite filter_comp.
  set (g := fun o => negb (order_in o (skipn n ranked))).
  transitivity (length (List.filter g (keep_of s far orders))).
  - unfold keep_of. rewrite filter_comp. apply filter_length_mono.
    intros o _ Ho. apply andb_prop in Ho. destruct Ho as [Hc Hs].
    apply negb_true_iff in Hc. rewrite Hs. unfold g.
    rewrite (order_in_incl o far cancel far_cancelled Hc).
    rewrite (order_in_incl o _ cancel tail_cancelled Hc). reflexivity.
  - rewrite <- (sort_by_key_filter_length key g). fold ranked.
    rewrite <- (firstn_skipn n ranked) at 1. rewrite filter_app, length_app.
    rewrite (filter_none g (skipn n ranked)).
    + cbn [length]. rewrite Nat.add_0_r.
      etransitivity; [apply filter_length_le | apply firstn_le_length].
    + intros x Hx. unfold g. rewrite (order_in_In x _ Hx). reflexivity.
Qed.

Lemma survivor_closer_than_tail (o o' : Order) :
  In o orders -> order_in o cancel = false -> side o = s ->
  In o' (skipn n ranked) -> key o <= key o'.
Proof.
  intros Hin Hc Hs Ho'.
  assert (Hk : In o ranked).
  { apply sort_by_key_In. unfold keep_of. apply filter_In. split; [exact Hin|].
    rewrite Hs, (order_in_incl o far cancel far_cancelled Hc).
    destruct s; reflexivity. }
  rewrite <- (firstn_skipn n ranked) in Hk. apply in_app_or in Hk.
  destruct Hk as [Hk | Hk].
  - eapply ascending_firstn_skipn; [apply sort_by_key_ascending | exact Hk | exact Ho'].
  - apply tail_cancelled, order_in_In in Hk. congruence.
Qed.

End Ranking.

(** After removing the orders returned by [cancellable_orders] from the
    input, at most [max_bids] BUYs and at most [max_asks] SELLs survive, and
    the survivors of a side are its closest non-far orders: every survivor is
    within [cancel_if_away_by] of its side's target and at least as close to
    it as every non-far order of that side that was cancelled. *)
Theorem count_caps_respected `{K : Constants} (self : SafeSpread) (orders : list Order)
    (target_price : Q) :
  (0 <= max_bids self)%Z -> (0 <= max_asks self)%Z ->
  let alive := survivors self orders target_price in
  (Z.of_nat (count_side BUY alive) <= max_bids self)%Z
  /\ (Z.of_nat (count_side SELL alive) <= max_asks self)%Z
  /\ forall bid_target ask_target,
       pair_targets self orders target_price = Some (bid_target, ask_target) ->
       forall o, In o alive ->
         closeness bid_target ask_target o <= cancel_if_away_by self
         /\ forall o',
              In o' (cancellable_orders self orders target_price) ->
              side o' = side o ->
              closeness bid_target ask_target o' <= cancel_if_away_by self ->
              closeness bid_target ask_target o <= closeness bid_target ask_target o'.
Proof.
  intros Hb Ha alive. subst alive. unfold survivors, pair_targets.
  destruct (deduce_buy_token orders) as [t|] eqn:Et.
  2:{ apply deduce_buy_token_none in Et. subst orders. cbn.
      split; [lia | split; [lia | discriminate]]. }
  rewrite (cancellable_orders_unfold self orders target_price t Et). cbv zeta.
  set (q := _desired_quotes self (_mid_with_skew self target_price t)).
  set (key := closeness (fst q) (snd q)).
  set (far := far_aways_of self (fst q) (snd q) orders).
  rewrite !excess_skipn by assumption.
  set (EB := skipn (Z.to_nat (max_bids self)) (sort_by_key key (keep_of BUY far orders))).
  set (ES := skipn (Z.to_nat (max_asks self)) (sort_by_key key (keep_of SELL far orders))).
  set (cancel := far ++ EB ++ ES).
  assert (Hfar : forall x, In x far -> In x cancel)
    by (intros x Hx; apply in_or_app; left; exact Hx).
  assert (HEB : forall x, In x EB -> In x cancel)
    by (intros x Hx; apply in_or_app; right; apply in_or_app; left; exact Hx).
  assert (HES : forall x, In x ES -> In x cancel)
    by (intros x Hx; apply in_or_app; right; apply in_or_app; right; exact Hx).
  split; [|split].
  - pose proof (survivors_count_le key orders far cancel BUY
                  (Z.to_nat (max_bids self)) Hfar HEB). lia.
  - pose proof (survivors_count_le key orders far cancel SELL
                  (Z.to_nat (max_asks self)) Hfar HES). lia.
  - intros bid_target ask_target Hq o Ho.
    assert (Ekey : closeness bid_target ask_target = key).
    { assert (Hq' : q = (bid_target, ask_target)) by congruence.
      unfold key. rewrite Hq'. reflexivity. }
    rewrite Ekey. clear Ekey Hq.
    apply filter_In in Ho. destruct Ho as [Hin Hc]. apply negb_true_iff in Hc.
    split.
    + destruct (Qltb (cancel_if_away_by self) (key o)) eqn:E.
      * assert (In o far) by (apply filter_In; split; assumption).
        rewrite (order_in_In o cancel) in Hc by auto. discriminate.
      * apply Qltb_false in E. exact E.
    + intros o' Ho' Hside Hnear.
      apply in_app_or in Ho'. destruct Ho' as [Ho' | Ho'].
      { apply filter_In in Ho'. destruct Ho' as [_ Ho']. fold key in Ho'.
        apply Qltb_true in Ho'. lra. }
      apply in_app_or in Ho'. destruct Ho' as [Ho' | Ho'].
      * assert (Hs' : side o' = BUY).
        { apply (ranked_side key orders far BUY).
          rewrite <- (firstn_skipn (Z.to_nat (max_bids self))).
          apply in_or_app. right. exact Ho'. }
        apply (survivor_closer_than_tail key orders far cancel BUY
                 (Z.to_nat (max_bids self)) Hfar HEB o o' Hin Hc);
          [congruence | exact Ho'].
      * assert (Hs' : side o' = SELL).
        { apply (ranked_side key orders far SELL).
          rewrite <- (firstn_skipn (Z.to_nat (max_asks self))).
          apply in_or_app. right. exact Ho'. }
        apply (survivor_closer_than_tail key orders far cancel SELL
                 (Z.to_nat (max_asks self)) Hfar HES o o' Hin Hc);
          [congruence | exact Ho'].
Qed.

(** C8.  [cancellable_orders] applied to an empty order list, or to a list
    that holds neither a BUY nor a SELL (so that the buy-token cannot be
    determined), returns the empty list: the model has no failure to
    return there. *)
Theorem cancellable_orders_degenerate `{K : Constants} (self : SafeSpread)
    (orders : list Order) (target_price : Q) :
  orders = [] \/ (forall o, In o orders -> side o <> BUY /\ side o <> SELL) ->
  cancellable_orders self orders target_price = [].
Proof.
  intros [-> | Hnone]; [reflexivity|].
  destruct orders as [|o rest]; [reflexivity|].
  destruct (Hnone o (or_introl eq_refl)) as [Hb Hs].
  destruct (side o); congruence.
Qed.

End CancelFacts.

(** ** Configuration resolution *)

Module ConfigFacts.

Lemma get_two {T : Type} (cfg : gmap string T) (snake camel : string) (default : T) :
  get cfg [snake; camel] default = resolve cfg snake camel default.
Proof. reflexivity. Qed.

Lemma get_two_optional (cfg : gmap string Q) (snake camel : string) :
  get (Some <$> cfg) [snake; camel] None = resolve_optional cfg snake camel.
Proof.
  unfold resolve_optional. cbn [get]. rewrite !lookup_fmap.
  destruct (cfg !! snake); [reflexivity|]. destruct (cfg !! camel); reflexivity.
Qed.

Lemma initial_balances :
  gset_to_gmap (0 : Q) (list_to_set all_tokens) = ({[ A := 0; B := 0 ]} : gmap Token Q).
Proof.
  apply map_eq. intros t. rewrite lookup_gset_to_gmap.
  destruct t; vm_compute; reflexivity.
Qed.

(** A key that none of the probed names equals does not change a lookup. *)
Lemma get_insert_other {T : Type} (cfg : gmap string T) (keys : list string)
    (default : T) (k : string) (v : T) :
  ~ In k keys -> get (<[k := v]> cfg) keys default = get cfg keys default.
Proof.
  induction keys as [|k' ks IH]; intros Hk; [reflexivity|].
  cbn [get]. rewrite lookup_insert_ne.
  - rewrite IH; [reflexivity|]. intros H. apply Hk. right. exact H.
  - intros ->. apply Hk. left. reflexivity.
Qed.

(** C9.  [SafeSpread.__init__] resolves each parameter by its snake_case
    name first and its camelCase name second and binds the documented
    default when both are absent (with no key at all: target_spread 0.03,
    order_size 10, max_bids 2, max_asks 2, cancel_if_away_by 0.02,
    max_inventory_per_token 40, max_notional_per_side 120, skew_per_unit
    0.0005, min_place_size 0.1, no half_spread_override); a key that is not
    one of the twenty recognized names has no effect. *)
Theorem init_resolves_configuration (cfg : gmap string Q) :
  SafeSpread_init cfg = documented_engine cfg
  /\ SafeSpread_init ∅ = default_engine
  /\ forall (k : string) (v : Q),
       ~ In k recognized_keys ->
       SafeSpread_init (<[k := v]> cfg) = SafeSpread_init cfg.
Proof.
  split; [|split].
  - unfold SafeSpread_init, documented_engine.
    rewrite get_two_optional, !get_two, initial_balances. reflexivity.
  - unfold SafeSpread_init, default_engine.
    rewrite get_two_optional, !get_two, initial_balances. reflexivity.
  - intros k v Hk. unfold SafeSpread_init. rewrite fmap_insert.
    rewrite !get_insert_other; [reflexivity|..];
      intros Hin; apply Hk; unfold recognized_keys;
      cbn [In] in Hin |- *; tauto.
Qed.

End ConfigFacts.

(** ** The properties at concrete inputs *)

Module Examples.
Import RoundFacts PriceFacts QuoteFacts PlacementFacts SizingFacts CollateralFacts
       CancelFacts ConfigFacts.

Ltac reference_ok :=
  unfold constants_ok; cbn; repeat split; try reflexivity; exists 1%Z; reflexivity.

Lemma round_price_normalised_witness :
  @constants_ok reference_constants
  /\ (1 # 100 <= @_round_price reference_constants (1 # 3) <= 1 - (1 # 100)
      /\ on_grid 2 (@_round_price reference_constants (1 # 3))).
Proof.
  split; [reference_ok|].
  apply (@round_price_normalised reference_constants (1 # 3)). reference_ok.
Defined.

Lemma desired_quotes_not_crossed_witness :
  let q := @_desired_quotes reference_constants default_engine (99 # 100) in
  fst q < snd q.
Proof.
  apply (@desired_quotes_not_crossed reference_constants default_engine (99 # 100)).
  - reference_ok.
  - vm_compute. discriminate.
Defined.

(** Above the legal price range the bid sits on the upper bound
    [1 - MIN_TICK], and the forced ask [_round_price (bid + MIN_TICK)] is
    clamped back onto it. *)
Lemma desired_quotes_coincide_at_upper_clamp :
  let q := @_desired_quotes reference_constants default_engine 2 in
  fst q == 1 - (1 # 100) /\ ~ fst q < snd q.
Proof.
  split.
  - vm_compute. reflexivity.
  - vm_compute. discriminate.
Qed.

Lemma bid_price_never_zero_witness :
  let bid_target :=
    fst (@_desired_quotes reference_constants default_engine
           (@_mid_with_skew reference_constants default_engine (1 # 2) A)) in
  1 # 100 <= bid_target
  /\ 0 < bid_target
  /\ @_bid_size reference_constants default_engine 100 bid_target A <> None
  /\ exists l, @new_orders reference_constants default_engine [] 100 100 (1 # 2) A = Some l.
Proof.
  apply (@bid_price_never_zero reference_constants default_engine [] 100 100 (1 # 2) A).
  reference_ok.
Defined.

(** The scenario of the specification: a resting BUY at 0.479 against a bid
    target of 0.48. *)
Lemma near_duplicate_suppressed_strictly_witness :
  @side_target reference_constants engine_spread_004 (1 # 2) A BUY == 48 # 100
  /\ exists l,
       @new_orders reference_constants engine_spread_004 [buy_0479] 100 100 (1 # 2) A
       = Some l
       /\ forall n, In n l -> side n <> BUY.
Proof.
  split; [vm_compute; reflexivity|].
  apply (@near_duplicate_suppressed_strictly reference_constants engine_spread_004
           [buy_0479] 100 100 (1 # 2) A buy_0479).
  - reference_ok.
  - left. reflexivity.
  - vm_compute. reflexivity.
Defined.

Lemma buy_respects_inventory_cap_witness :
  exists l,
    @new_orders reference_constants engine_long_A [] 100 0 (1 # 2) A = Some l
    /\ forall n, In n l -> side n = BUY ->
         holdings engine_long_A A < max_inventory_per_token engine_long_A
         /\ size n <=
            py_round
              (Qmax 15 (Qmax 0 (max_inventory_per_token engine_long_A
                                - holdings engine_long_A A))) 2.
Proof.
  apply (@buy_respects_inventory_cap reference_constants engine_long_A [] 100 0 (1 # 2) A).
  reference_ok.
Defined.

(** Half a unit under the cap, the BUY is sized up to [MIN_SIZE]: 39.5 + 15
    is past the cap of 40. *)
Lemma buy_overshoots_inventory_cap :
  exists l n,
    @new_orders reference_constants engine_long_A [] 100 0 (1 # 2) A = Some l
    /\ In n l /\ side n = BUY
    /\ max_inventory_per_token engine_long_A < holdings engine_long_A A + size n.
Proof.
  eexists _, _. split; [vm_compute; reflexivity|].
  split; [left; reflexivity|]. split; [reflexivity|].
  vm_compute. reflexivity.
Qed.

Lemma sell_size_bounds_witness :
  exists l,
    @new_orders reference_constants engine_long_B [] 0 100 (1 # 2) A = Some l
    /\ forall n, In n l -> side n = SELL ->
         let floor_size := Qmax (min_place_size engine_long_B) 15 in
         let inv := holdings engine_long_B B in
         floor_size <= 100
         /\ floor_size <= size n
         /\ size n <= py_round 100 2
         /\ (max_inventory_per_token engine_long_B < inv ->
             py_round (Qmin (inv - max_inventory_per_token engine_long_B) 100) 2
             <= size n).
Proof.
  apply (@sell_size_bounds reference_constants engine_long_B [] 0 100 (1 # 2) A).
  reference_ok.
Defined.

(** A free balance of 15.006 is sold as 15.01, more than is free; an excess
    of 15.004 over the cap is sold as 15.00, less than the excess. *)
Lemma sell_size_escapes_bounds :
  (exists l n,
     @new_orders reference_constants engine_big_orders [] 0 (15006 # 1000) (1 # 2) A
     = Some l
     /\ In n l /\ side n = SELL /\ 15006 # 1000 < size n)
  /\ (exists l n,
        @new_orders reference_constants engine_long_B [] 0 100 (1 # 2) A = Some l
        /\ In n l /\ side n = SELL
        /\ max_inventory_per_token engine_long_B < holdings engine_long_B B
        /\ size n
           < Qmin (holdings engine_long_B B - max_inventory_per_token engine_long_B) 100).
Proof.
  split; eexists _, _; (split; [vm_compute; reflexivity|]);
    (split; [left; reflexivity|]); (split; [reflexivity|]).
  - vm_compute. reflexivity.
  - split; vm_compute; reflexivity.
Qed.

Lemma cycle_buy_notional_bounded_witness :
  exists mm' orders_to_cancel orders_to_place,
    @get_orders reference_constants engine_big_orders book_small_cash even_targets
    = Some (mm', (orders_to_cancel, orders_to_place))
    /\ buy_notional orders_to_place
       <= Qmax 0 (@free_collateral_at_start book_small_cash orders_to_cancel)
          + @half_unit reference_constants.
Proof.
  apply (@cycle_buy_notional_bounded reference_constants engine_big_orders
           book_small_cash even_targets).
  reference_ok.
Defined.

(** With 7.20288 free, the first pair buys 15.01 units at 0.48, a notional of
    7.2048; with a surviving BUY that locks more than the collateral held, the
    free collateral is negative and the empty place list is already above
    it. *)
Lemma cycle_buy_notional_exceeds_free_collateral :
  (exists mm' orders_to_cancel orders_to_place,
     @get_orders reference_constants engine_big_orders book_small_cash even_targets
     = Some (mm', (orders_to_cancel, orders_to_place))
     /\ 0 <= @free_collateral_at_start book_small_cash orders_to_cancel
     /\ @free_collateral_at_start book_small_cash orders_to_cancel
        < buy_notional orders_to_place)
  /\ (exists mm' orders_to_cancel orders_to_place,
        @get_orders reference_constants engine_big_orders book_no_cash even_targets
        = Some (mm', (orders_to_cancel, orders_to_place))
        /\ @free_collateral_at_start book_no_cash orders_to_cancel
           < buy_notional orders_to_place).
Proof.
  split; eexists _, _, _; (split; [vm_compute; reflexivity|]).
  - split; vm_compute; [discriminate | reflexivity].
  - vm_compute. reflexivity.
Qed.

(** The scenario of the specification: with one bid allowed, the BUY 0.003
    away is cancelled as excess and the BUY 0.001 away survives. *)
Lemma count_caps_respected_witness :
  let alive := @survivors reference_constants engine_one_bid resting_orders (1 # 2) in
  (Z.of_nat (count_side BUY alive) <= max_bids engine_one_bid)%Z
  /\ (Z.of_nat (count_side SELL alive) <= max_asks engine_one_bid)%Z
  /\ forall bid_target ask_target,
       @pair_targets reference_constants engine_one_bid resting_orders (1 # 2)
       = Some (bid_target, ask_target) ->
       forall o, In o alive ->
         @closeness reference_constants bid_target ask_target o
         <= cancel_if_away_by engine_one_bid
         /\ forall o',
              In o' (@cancellable_orders reference_constants engine_one_bid
                       resting_orders (1 # 2)) ->
              side o' = side o ->
              @closeness reference_constants bid_target ask_target o'
              <= cancel_if_away_by engine_one_bid ->
              @closeness reference_constants bid_target ask_target o
              <= @closeness reference_constants bid_target ask_target o'.
Proof.
  apply (@count_caps_respected reference_constants engine_one_bid resting_orders (1 # 2)).
  - vm_compute. discriminate.
  - vm_compute. discriminate.
Defined.

Lemma cancellable_orders_degenerate_witness :
  @cancellable_orders reference_constants default_engine [] (1 # 2) = [].
Proof.
  apply (@cancellable_orders_degenerate reference_constants default_engine [] (1 # 2)).
  left. reflexivity.
Defined.

Lemma init_resolves_configuration_witness :
  SafeSpread_init (<["bogus"%string := 1]> {[ "orderSize"%string := 5 ]})
  = SafeSpread_init {[ "orderSize"%string := 5 ]}.
Proof.
  apply (proj2 (proj2 (init_resolves_configuration {[ "orderSize"%string := 5 ]}))).
  vm_compute. intuition discriminate.
Defined.

End Examples.

(** * Further properties of the quoting engine *)

(** ** Normalisation, skew and the quote pair *)

Module QuoteMoreFacts.
Import RoundFacts PriceFacts QuoteFacts PlacementFacts.

Section WithConstants.
Context `{K : Constants}.

(** A positive tick with at most [MAX_DECIMALS] decimals is at least one unit
    of the last decimal. *)
Lemma tick_at_least_unit : constants_ok -> 1 / pow10 MAX_DECIMALS <= MIN_TICK.
Proof.
  intros (H0 & _ & [k Hk]). pose proof (pow10_pos MAX_DECIMALS) as Hp.
  assert (Hk0 : 0 < inject_Z k).
  { assert (E : inject_Z k == MIN_TICK * pow10 MAX_DECIMALS) by (rewrite Hk; field; lra).
    rewrite E. apply Qmult_lt_0_compat; assumption. }
  change 0 with (inject_Z 0) in Hk0. rewrite <- Zlt_Qlt in Hk0.
  assert (Hk1 : 1 <= inject_Z k).
  { change 1 with (inject_Z 1). rewrite <- Zle_Qle. lia. }
  assert (Hi : 0 <= / pow10 MAX_DECIMALS) by (apply Qlt_le_weak, Qinv_lt_0_compat, Hp).
  pose proof (Qmult_le_compat_r _ _ _ Hk1 Hi) as Hm.
  unfold Qdiv. unfold Qdiv in Hk. lra.
Qed.

Lemma round_price_idem (x : Q) :
  constants_ok -> _round_price (_round_price x) == _round_price x.
Proof.
  intros Hok. apply round_price_fix.
  - apply round_price_range, Hok.
  - apply py_round_on_grid.
Qed.

Lemma ask_target_range (self : SafeSpread) (mid : Q) :
  constants_ok ->
  MIN_TICK <= snd (_desired_quotes self mid) <= 1 - MIN_TICK.
Proof.
  intros Hok. unfold _desired_quotes; cbn [snd].
  destruct (Qleb _ _); apply round_price_range, Hok.
Qed.

Lemma ask_target_on_grid (self : SafeSpread) (mid : Q) :
  on_grid MAX_DECIMALS (snd (_desired_quotes self mid)).
Proof.
  unfold _desired_quotes; cbn [snd]. destruct (Qleb _ _); apply py_round_on_grid.
Qed.

Lemma bid_target_on_grid (self : SafeSpread) (mid : Q) :
  on_grid MAX_DECIMALS (fst (_desired_quotes self mid)).
Proof. unfold _desired_quotes; cbn [fst]. apply py_round_on_grid. Qed.

Lemma bid_le_ask (self : SafeSpread) (mid : Q) :
  constants_ok ->
  fst (_desired_quotes self mid) <= snd (_desired_quotes self mid).
Proof.
  intros Hok. pose proof Hok as (H0 & _ & _).
  pose proof (bid_target_range self mid Hok) as Hr.
  pose proof (bid_target_on_grid self mid) as Hg.
  unfold _desired_quotes in *; cbn [fst snd] in *.
  set (half := Qmax _ MIN_TICK) in *.
  set (bid := _round_price (mid - half)) in *.
  destruct (Qleb (_round_price (mid + half)) bid) eqn:E.
  - pose proof (round_price_fix bid Hr Hg) as Ef.
    assert (Hle : bid <= bid + MIN_TICK) by lra.
    pose proof (round_price_mono _ _ Hle). lra.
  - apply Qleb_false in E. lra.
Qed.

Lemma bid_target_mono (self : SafeSpread) (m1 m2 : Q) :
  m1 <= m2 ->
  fst (_desired_quotes self m1) <= fst (_desired_quotes self m2).
Proof.
  intros H. unfold _desired_quotes; cbn [fst]. apply round_price_mono. lra.
Qed.

End WithConstants.

(** X1.  [_round_price] is monotone, and normalising a normalised price
    changes nothing. *)
Theorem round_price_monotone_idempotent `{K : Constants} (x y : Q) :
  constants_ok -> x <= y ->
  _round_price x <= _round_price y
  /\ _round_price (_round_price x) == _round_price x.
Proof.
  intros Hok Hxy. split.
  - apply round_price_mono, Hxy.
  - apply round_price_idem, Hok.
Qed.

(** [_clamp x lo hi] is never below [lo]; it is at most [hi] when
    [lo <= hi], returns [x] inside the interval, and returns [lo] when the
    bounds are inverted: the lower bound wins. *)
Lemma clamp_lower_bound_wins (x lo hi : Q) :
  lo <= _clamp x lo hi
  /\ (lo <= hi -> _clamp x lo hi <= hi)
  /\ (lo <= x <= hi -> _clamp x lo hi == x)
  /\ (hi < lo -> _clamp x lo hi == lo).
Proof.
  unfold _clamp. repeat split; intros; minmax.
Qed.

(** X2.  With a non-negative [skew_per_unit], holding more of a token never
    raises the skewed midpoint nor the bid quoted for that token. *)
Theorem more_inventory_lowers_bid `{K : Constants} (self : SafeSpread)
    (b1 b2 : gmap Token Q) (c1 c2 target_price : Q) (t : Token) :
  0 <= skew_per_unit self ->
  default 0 (b1 !! t) <= default 0 (b2 !! t) ->
  _mid_with_skew (set_context self b2 c2) target_price t
  <= _mid_with_skew (set_context self b1 c1) target_price t
  /\ side_target (set_context self b2 c2) target_price t BUY
     <= side_target (set_context self b1 c1) target_price t BUY.
Proof.
  intros Hk Hinv.
  assert (Hmid : _mid_with_skew (set_context self b2 c2) target_price t
                 <= _mid_with_skew (set_context self b1 c1) target_price t).
  { unfold _mid_with_skew, holdings. cbn [_balances skew_per_unit set_context].
    apply round_price_mono.
    pose proof (Qmult_le_compat_r _ _ _ Hinv Hk). lra. }
  split; [exact Hmid|].
  unfold side_target. cbv zeta.
  unfold _desired_quotes. cbn [fst half_spread_override target_spread set_context].
  apply round_price_mono. lra.
Qed.

(** X3.  For a token the balances do not mention, and before the first
    [set_context], no skew is applied: the midpoint is the normalised base
    price. *)
Theorem no_inventory_no_skew `{K : Constants} (self : SafeSpread) (cfg : gmap string Q)
    (base_mid : Q) (t : Token) :
  _balances self !! t = None \/ self = SafeSpread_init cfg ->
  _mid_with_skew self base_mid t == _round_price base_mid.
Proof.
  intros Hcase.
  assert (Eh : holdings self t = 0).
  { destruct Hcase as [Hnone | ->].
    - unfold holdings. rewrite Hnone. reflexivity.
    - destruct t; vm_compute; reflexivity. }
  unfold _mid_with_skew. rewrite Eh.
  unfold _round_price. apply py_round_proper.
  set (k := skew_per_unit _).
  assert (E : base_mid - 0 * k == base_mid) by ring.
  revert E. minmax.
Qed.

(** X4.  For every midpoint, in or out of the price range, both quotes of
    [_desired_quotes] are normalised prices and the bid is never above the
    ask; the two coincide only with the bid on the upper bound
    [1 - MIN_TICK]. *)
Theorem desired_quotes_ordered `{K : Constants} (self : SafeSpread) (mid : Q) :
  constants_ok ->
  let q := _desired_quotes self mid in
  MIN_TICK <= fst q <= 1 - MIN_TICK
  /\ MIN_TICK <= snd q <= 1 - MIN_TICK
  /\ on_grid MAX_DECIMALS (fst q) /\ on_grid MAX_DECIMALS (snd q)
  /\ fst q <= snd q
  /\ (fst q == snd q -> fst q == 1 - MIN_TICK).
Proof.
  intros Hok q. subst q.
  pose proof (bid_target_range self mid Hok) as Hb.
  pose proof (ask_target_range self mid Hok) as Ha.
  repeat split; try tauto.
  - apply bid_target_on_grid.
  - apply ask_target_on_grid.
  - apply bid_le_ask, Hok.
  - intros Heq. destruct (Qlt_le_dec (fst (_desired_quotes self mid)) (1 - MIN_TICK))
      as [Hlt | Hge].
    + pose proof (ask_above_bid_below_bound self mid Hok Hlt). lra.
    + lra.
Qed.

(** X5.  When neither quote is clamped, the quoted spread [ask - bid] is the
    configured spread [2 * half] up to one unit of the last decimal, where
    [half] is the override or half the target spread, floored at one tick. *)
Theorem quoted_spread_width `{K : Constants} (self : SafeSpread) (mid : Q) :
  constants_ok ->
  MIN_TICK <= mid - effective_half self ->
  mid + effective_half self <= 1 - MIN_TICK ->
  let q := _desired_quotes self mid in
  2 * effective_half self - 2 * half_unit <= snd q - fst q
  /\ snd q - fst q <= 2 * effective_half self + 2 * half_unit.
Proof.
  intros Hok Hlo Hhi q. subst q.
  pose proof Hok as (H0 & H1 & _).
  pose proof (tick_at_least_unit Hok) as Hu.
  assert (Ehu : 2 * half_unit == 1 / pow10 MAX_DECIMALS)
    by (unfold half_unit; pose proof (pow10_pos MAX_DECIMALS); field; lra).
  assert (Hhalf : MIN_TICK <= effective_half self) by (unfold effective_half; minmax).
  unfold _desired_quotes; cbn [fst snd]. fold (effective_half self).
  set (half := effective_half self) in *.
  pose proof (py_round_near (mid - half) MAX_DECIMALS) as [Bl Bu].
  pose proof (py_round_near (mid + half) MAX_DECIMALS) as [Al Au].
  fold half_unit in Bl, Bu, Al, Au.
  assert (Eb : Qmax MIN_TICK (Qmin (1 - MIN_TICK) (mid - half)) == mid - half) by minmax.
  assert (Ea : Qmax MIN_TICK (Qmin (1 - MIN_TICK) (mid + half)) == mid + half) by minmax.
  pose proof (py_round_proper _ _ MAX_DECIMALS Eb) as Rb.
  pose proof (py_round_proper _ _ MAX_DECIMALS Ea) as Ra.
  fold (_round_price (mid - half)) in Rb. fold (_round_price (mid + half)) in Ra.
  destruct (Qleb (_round_price (mid + half)) (_round_price (mid - half))) eqn:E.
  - apply Qleb_true in E. exfalso. lra.
  - lra.
Qed.

End QuoteMoreFacts.

(** ** More on the cancellation decision *)

Module CancelMoreFacts.
Import RoundFacts SortFacts CancelFacts.

Lemma excess_is_skipn {X : Type} (l : list X) (n : Z) :
  exists k, excess l n = skipn k l.
Proof.
  unfold excess, py_slice_from. destruct (n <? Z.of_nat (length l))%Z.
  - destruct (0 <=? n)%Z; eauto.
  - exists (length l). symmetry. apply skipn_all.
Qed.

Lemma skipn_In {X : Type} (k : nat) (l : list X) (x : X) :
  In x (skipn k l) -> In x l.
Proof.
  intros H. rewrite <- (firstn_skipn k l). apply in_or_app. right. exact H.
Qed.

Lemma skipn_NoDup {X : Type} (k : nat) (l : list X) : NoDup l -> NoDup (skipn k l).
Proof.
  intros H. rewrite <- (firstn_skipn k l) in H. eapply NoDup_app_remove_l, H.
Qed.

Lemma excess_In {X : Type} (l : list X) (n : Z) (x : X) : In x (excess l n) -> In x l.
Proof.
  destruct (excess_is_skipn l n) as [k ->]. apply skipn_In.
Qed.

Lemma excess_NoDup {X : Type} (l : list X) (n : Z) : NoDup l -> NoDup (excess l n).
Proof.
  destruct (excess_is_skipn l n) as [k ->]. apply skipn_NoDup.
Qed.

Lemma insert_by_key_NoDup {X : Type} (f : X -> Q) (x : X) (l : list X) :
  ~ In x l -> NoDup l -> NoDup (insert_by_key f x l).
Proof.
  induction l as [|y l IH]; intros Hx Hl; cbn [insert_by_key].
  - constructor; [exact Hx | constructor].
  - destruct (Qleb (f x) (f y)); [constructor; assumption|].
    inversion Hl as [|? ? Hy Hl']; subst. constructor.
    + rewrite insert_by_key_In. intros [-> | H]; [apply Hx; left; reflexivity | tauto].
    + apply IH; [|exact Hl']. intros H. apply Hx. right. exact H.
Qed.

Lemma sort_by_key_NoDup {X : Type} (f : X -> Q) (l : list X) :
  NoDup l -> NoDup (sort_by_key f l).
Proof.
  induction 1 as [|x l Hx Hl IH]; [constructor|].
  cbn [sort_by_key fold_right]. apply insert_by_key_NoDup; [|exact IH].
  fold (sort_by_key f l). rewrite sort_by_key_In. exact Hx.
Qed.

Lemma insert_by_key_length {X : Type} (f : X -> Q) (x : X) (l : list X) :
  length (insert_by_key f x l) = S (length l).
Proof.
  induction l as [|y l IH]; [reflexivity|].
  cbn [insert_by_key]. destruct (Qleb (f x) (f y)); cbn [length]; [reflexivity|].
  rewrite IH. reflexivity.
Qed.

Lemma sort_by_key_length {X : Type} (f : X -> Q) (l : list X) :
  length (sort_by_key f l) = length l.
Proof.
  induction l as [|x l IH]; [reflexivity|].
  cbn [sort_by_key fold_right]. rewrite insert_by_key_length.
  fold (sort_by_key f l). rewrite IH. reflexivity.
Qed.

Lemma keep_of_In (s : Side) (far orders : list Order) (x : Order) :
  In x (keep_of s far orders) ->
  In x orders /\ side x = s /\ order_in x far = false.
Proof.
  unfold keep_of. rewrite filter_In. intros [Hin Hb].
  apply andb_prop in Hb. destruct Hb as [Hs Hf]. apply negb_true_iff in Hf.
  repeat split; try assumption. destruct (side x), s; (reflexivity || discriminate).
Qed.

(** The buy-token inferred from a non-empty pair list is the pair's. *)
Lemma first_buy_token_pair (t t' : Token) (l : list Order) :
  pair_of t l -> first_buy_token l = Some t' -> t' = t.
Proof.
  induction l as [|o rest IH]; intros Hp; [discriminate|].
  cbn [first_buy_token]. destruct (side o) eqn:Es; cbn [Side_eqb].
  - intros [= <-]. specialize (Hp o (or_introl eq_refl)). rewrite Es in Hp. exact Hp.
  - apply IH. intros x Hx. apply Hp. right. exact Hx.
Qed.

Lemma deduce_buy_token_pair (t : Token) (l : list Order) :
  pair_of t l -> l <> [] -> deduce_buy_token l = Some t.
Proof.
  intros Hp Hne. unfold deduce_buy_token.
  destruct (first_buy_token l) as [t'|] eqn:Ef.
  - f_equal. eapply first_buy_token_pair; eassumption.
  - destruct l as [|o rest]; [congruence|].
    cbn [first_buy_token] in Ef. cbn [first_sell_complement].
    pose proof (Hp o (or_introl eq_refl)) as Ho.
    destruct (side o); cbn [Side_eqb] in *; [discriminate|].
    rewrite Ho. destruct t; reflexivity.
Qed.

Section WithConstants.
Context `{K : Constants}.

Lemma cancellable_orders_In (self : SafeSpread) (l : list Order) (tp : Q) (o : Order) :
  In o (cancellable_orders self l tp) -> In o l.
Proof.
  destruct (deduce_buy_token l) as [t|] eqn:Et.
  2:{ apply deduce_buy_token_none in Et. subst l. intros []. }
  rewrite (cancellable_orders_unfold self l tp t Et). cbv zeta.
  intros Ho. apply in_app_or in Ho. destruct Ho as [Ho | Ho].
  { apply filter_In in Ho. tauto. }
  apply in_app_or in Ho.
  destruct Ho as [Ho | Ho]; apply excess_In, sort_by_key_In, keep_of_In in Ho; tauto.
Qed.

Lemma cancellable_orders_NoDup (self : SafeSpread) (orders : list Order) (target_price : Q) :
  NoDup orders -> NoDup (cancellable_orders self orders target_price).
Proof.
  intros Hnd.
  destruct (deduce_buy_token orders) as [t|] eqn:Et.
  2:{ apply deduce_buy_token_none in Et. subst orders. constructor. }
  rewrite (cancellable_orders_unfold self orders target_price t Et). cbv zeta.
  set (q := _desired_quotes self (_mid_with_skew self target_price t)).
  set (key := closeness (fst q) (snd q)).
  set (far := far_aways_of self (fst q) (snd q) orders).
  assert (Hkeep : forall s, NoDup (sort_by_key key (keep_of s far orders)))
    by (intros s; apply sort_by_key_NoDup, NoDup_filter, Hnd).
  apply NoDup_app; [apply NoDup_filter, Hnd | apply NoDup_app | ].
  - apply excess_NoDup, Hkeep.
  - apply excess_NoDup, Hkeep.
  - intros x Hb Hs.
    apply excess_In, sort_by_key_In, keep_of_In in Hb.
    apply excess_In, sort_by_key_In, keep_of_In in Hs.
    destruct Hb as (_ & Hb & _), Hs as (_ & Hs & _). congruence.
  - intros x Hf Hx. apply order_in_In in Hf.
    apply in_app_or in Hx.
    destruct Hx as [Hx | Hx]; apply excess_In, sort_by_key_In, keep_of_In in Hx;
      destruct Hx as (_ & _ & Hx); congruence.
Qed.

End WithConstants.

(** X6.  [cancellable_orders] only returns orders of its input, and it
    returns every input order whose distance to its side's target exceeds
    [cancel_if_away_by]. *)
Theorem cancellations_within_input `{K : Constants} (self : SafeSpread)
    (orders : list Order) (target_price : Q) :
  (forall o, In o (cancellable_orders self orders target_price) -> In o orders)
  /\ forall bid_target ask_target o,
       pair_targets self orders target_price = Some (bid_target, ask_target) ->
       In o orders ->
       cancel_if_away_by self < closeness bid_target ask_target o ->
       In o (cancellable_orders self orders target_price).
Proof.
  split; [intros o; apply cancellable_orders_In|].
  intros bid_target ask_target o Hq Hin Hfar. unfold pair_targets in Hq.
  destruct (deduce_buy_token orders) as [t|] eqn:Et; [|discriminate].
  rewrite (cancellable_orders_unfold self orders target_price t Et). cbv zeta.
  set (q := _desired_quotes self (_mid_with_skew self target_price t)) in *.
  assert (Hq' : q = (bid_target, ask_target)) by congruence.
  apply in_or_app. left. unfold far_aways_of. apply filter_In. split; [exact Hin|].
  rewrite Hq'. cbn [fst snd]. apply Qltb_true. exact Hfar.
Qed.

(** X7.  No order is returned twice: on an input without repetition the
    far orders, the excess BUYs and the excess SELLs are disjoint. *)
Theorem cancellations_without_repetition `{K : Constants} (self : SafeSpread)
    (orders : list Order) (target_price : Q) :
  NoDup orders -> NoDup (cancellable_orders self orders target_price).
Proof. apply cancellable_orders_NoDup. Qed.

(** X8.  Cancellation is stable: on the list of one pair and with
    non-negative caps, a second pass over the survivors of the first pass
    cancels nothing. *)
Theorem second_pass_cancels_nothing `{K : Constants} (self : SafeSpread)
    (orders : list Order) (target_price : Q) (t : Token) :
  pair_of t orders ->
  (0 <= max_bids self)%Z -> (0 <= max_asks self)%Z ->
  cancellable_orders self (survivors self orders target_price) target_price = [].
Proof.
  intros Hpair Hb Ha.
  destruct (survivors self orders target_price) as [|s0 rest] eqn:ES; [reflexivity|].
  rewrite <- ES.
  assert (Hsub : forall x, In x (survivors self orders target_price) -> In x orders)
    by (intros x Hx; unfold survivors in Hx; apply filter_In in Hx; tauto).
  assert (Hne : orders <> []).
  { intros ->. discriminate ES. }
  assert (HneS : survivors self orders target_price <> []) by (rewrite ES; discriminate).
  assert (Et : deduce_buy_token orders = Some t) by (apply deduce_buy_token_pair; assumption).
  assert (EtS : deduce_buy_token (survivors self orders target_price) = Some t).
  { apply deduce_buy_token_pair; [|exact HneS]. intros x Hx. apply Hpair, Hsub, Hx. }
  rewrite (cancellable_orders_unfold self _ target_price t EtS). cbv zeta.
  clear ES s0 rest HneS EtS Hsub.
  unfold survivors.
  rewrite (cancellable_orders_unfold self orders target_price t Et). cbv zeta.
  set (q := _desired_quotes self (_mid_with_skew self target_price t)).
  set (key := closeness (fst q) (snd q)).
  set (far := far_aways_of self (fst q) (snd q) orders).
  rewrite !(excess_skipn (sort_by_key key (keep_of _ far orders))) by assumption.
  set (EB := skipn (Z.to_nat (max_bids self)) (sort_by_key key (keep_of BUY far orders))).
  set (ES := skipn (Z.to_nat (max_asks self)) (sort_by_key key (keep_of SELL far orders))).
  set (cancel := far ++ EB ++ ES).
  set (S := List.filter (fun o => negb (order_in o cancel)) orders).
  assert (Hfar : forall x, In x far -> In x cancel)
    by (intros x Hx; apply in_or_app; left; exact Hx).
  assert (HEB : forall x, In x EB -> In x cancel)
    by (intros x Hx; apply in_or_app; right; apply in_or_app; left; exact Hx).
  assert (HES : forall x, In x ES -> In x cancel)
    by (intros x Hx; apply in_or_app; right; apply in_or_app; right; exact Hx).
  (* no survivor is far *)
  assert (EfarS : far_aways_of self (fst q) (snd q) S = []).
  { unfold far_aways_of. apply filter_none. intros x Hx.
    apply filter_In in Hx. destruct Hx as [Hin Hc]. apply negb_true_iff in Hc.
    destruct (Qltb _ _) eqn:E; [|reflexivity].
    assert (In x far) by (apply filter_In; split; assumption).
    rewrite (order_in_In x cancel) in Hc by auto. discriminate. }
  rewrite EfarS.
  (* each side is within its cap *)
  assert (Hlen : forall s, length (keep_of s [] S) = count_side s S).
  { intros s. unfold keep_of, count_side. f_equal. apply filter_ext.
    intros o. cbn [order_in existsb negb]. apply andb_true_r. }
  assert (Hex : forall s (n : Z) ,
             (0 <= n)%Z -> (count_side s S <= Z.to_nat n)%nat ->
             excess (sort_by_key key (keep_of s [] S)) n = []).
  { intros s n Hn Hc. unfold excess.
    rewrite sort_by_key_length, Hlen.
    destruct (n <? Z.of_nat (count_side s S))%Z eqn:E; [|reflexivity].
    apply Z.ltb_lt in E. lia. }
  rewrite (Hex BUY (max_bids self) Hb), (Hex SELL (max_asks self) Ha); [reflexivity|..].
  - apply (survivors_count_le key orders far cancel SELL _ Hfar HES).
  - apply (survivors_count_le key orders far cancel BUY _ Hfar HEB).
Qed.

End CancelMoreFacts.

(** ** More on the placement decision *)

Module PlacementMoreFacts.
Import RoundFacts PriceFacts QuoteFacts PlacementFacts SizingFacts QuoteMoreFacts.

Lemma on_grid_one_minus (d : nat) (x : Q) : on_grid d x -> on_grid d (1 - x).
Proof.
  intros [k Hk]. exists (10 ^ Z.of_nat d + - k)%Z. pose proof (pow10_pos d) as Hp.
  rewrite inject_Z_plus, inject_Z_opp. fold (pow10 d).
  assert (E : (pow10 d + - inject_Z k) / pow10 d == 1 - inject_Z k / pow10 d)
    by (field; lra).
  lra.
Qed.

Section WithConstants.
Context `{K : Constants}.

Lemma new_ask_suppressed (self : SafeSpread) orders tb ask_target bt :
  has_near orders SELL ask_target = true -> new_ask self orders tb ask_target bt = [].
Proof. intros H. unfold new_ask. rewrite H. reflexivity. Qed.

Lemma new_bid_suppressed (self : SafeSpread) orders c bid_target bt :
  has_near orders BUY bid_target = true ->
  new_bid self orders c bid_target bt = Some [].
Proof. intros H. unfold new_bid. rewrite H. reflexivity. Qed.

Lemma new_ask_length (self : SafeSpread) orders tb ask_target bt :
  (length (new_ask self orders tb ask_target bt) <= 1)%nat.
Proof.
  unfold new_ask.
  repeat match goal with |- context [if ?c then _ else _] => destruct c end;
    cbn [length]; lia.
Qed.

Lemma new_bid_length (self : SafeSpread) orders c p bt l :
  new_bid self orders c p bt = Some l -> (length l <= 1)%nat.
Proof.
  unfold new_bid. destruct (_ && _).
  - destruct (_bid_size self c p bt); [|discriminate].
    destruct (Qleb _ _); intros [= <-]; cbn [length]; lia.
  - intros [= <-]. cbn [length]. lia.
Qed.

Lemma can_place_bid_rejects (self : SafeSpread) c p bt :
  c < p * Qmax (min_place_size self) MIN_SIZE
  \/ max_notional_per_side self < p * order_size self
  \/ max_inventory_per_token self <= holdings self bt ->
  _can_place_bid self c p bt = false.
Proof.
  intros H. destruct (_can_place_bid self c p bt) eqn:E; [|reflexivity].
  apply can_place_bid_inv in E. exfalso. lra.
Qed.

Lemma new_orders_rejected (self : SafeSpread) orders c tb tp bt :
  tb < Qmax (min_place_size self) MIN_SIZE ->
  c < fst (_desired_quotes self (_mid_with_skew self tp bt))
      * Qmax (min_place_size self) MIN_SIZE
  \/ max_notional_per_side self
     < fst (_desired_quotes self (_mid_with_skew self tp bt)) * order_size self
  \/ max_inventory_per_token self <= holdings self bt ->
  new_orders self orders c tb tp bt = Some [].
Proof.
  intros Htb Hrej. rewrite new_orders_unfold. cbv zeta.
  set (q := _desired_quotes self (_mid_with_skew self tp bt)) in *.
  clearbody q.
  unfold new_bid. rewrite (can_place_bid_rejects _ _ _ _ Hrej), andb_false_r.
  unfold new_ask, _can_place_ask.
  apply Qleb_false in Htb. rewrite Htb, andb_false_r. reflexivity.
Qed.

(** What [new_orders] returns, side by side. *)
Lemma new_orders_parts (self : SafeSpread) orders c tb tp bt l :
  new_orders self orders c tb tp bt = Some l ->
  exists asks bids,
    l = asks ++ bids
    /\ (length asks <= 1)%nat /\ (length bids <= 1)%nat
    /\ (forall n, In n asks ->
          n = mkOrder (_round_price (1 - snd (_desired_quotes self (_mid_with_skew self tp bt))))
                      (_ask_size self tb (complement bt)) SELL (complement bt)
          /\ Qmax (min_place_size self) MIN_SIZE <= tb)
    /\ (forall n, In n bids -> side n = BUY /\ token n = bt).
Proof.
  intros Hl. rewrite new_orders_unfold in Hl. cbv zeta in Hl.
  destruct (new_bid self orders c _ bt) as [bids|] eqn:Eb; [|discriminate].
  injection Hl as <-.
  exists (new_ask self orders tb
            (snd (_desired_quotes self (_mid_with_skew self tp bt))) bt), bids.
  split; [reflexivity|]. split; [apply new_ask_length|].
  split; [eapply new_bid_length, Eb|]. split.
  - intros n Hn. apply new_ask_inv in Hn. tauto.
  - intros n Hn. destruct (new_bid_inv _ _ _ _ _ _ _ Eb Hn) as (sz & -> & _).
    split; reflexivity.
Qed.

(** The SELL price is the exact mirror of the ask target. *)
Lemma sell_price_complement (self : SafeSpread) (mid : Q) :
  constants_ok ->
  _round_price (1 - snd (_desired_quotes self mid)) == 1 - snd (_desired_quotes self mid).
Proof.
  intros Hok. pose proof (ask_target_range self mid Hok) as Hr.
  apply round_price_fix; [lra|].
  apply on_grid_one_minus, ask_target_on_grid.
Qed.

Lemma sell_effective_price (self : SafeSpread) (mid : Q) :
  constants_ok ->
  py_round (1 - _round_price (1 - snd (_desired_quotes self mid))) MAX_DECIMALS
  == snd (_desired_quotes self mid).
Proof.
  intros Hok. pose proof (sell_price_complement self mid Hok) as E.
  pose proof (py_round_fix _ _ (ask_target_on_grid self mid)) as Ef.
  assert (E' : 1 - _round_price (1 - snd (_desired_quotes self mid))
               == snd (_desired_quotes self mid)) by lra.
  pose proof (py_round_proper _ _ MAX_DECIMALS E'). lra.
Qed.

End WithConstants.

(** X9.  [has_near] never looks at orders of the other side: its answer is
    the one it gives on the orders of the asked side alone, and it is [False]
    when no existing order is on that side. *)
Theorem has_near_ignores_other_side `{K : Constants} (orders : list Order) (s : Side)
    (p : Q) :
  has_near orders s p
  = has_near (List.filter (fun o => Side_eqb (side o) s) orders) s p
  /\ ((forall o, In o orders -> side o <> s) -> has_near orders s p = false).
Proof.
  split.
  - induction orders as [|x rest IH]; [reflexivity|].
    cbn [has_near List.filter]. destruct (Side_eqb (side x) s) eqn:Es; cbn [negb].
    + cbn [has_near]. rewrite Es. cbn [negb].
      destruct (Qleb _ MIN_TICK); [reflexivity | exact IH].
    + exact IH.
  - induction orders as [|x rest IH]; intros Hnone; [reflexivity|].
    cbn [has_near].
    assert (Es : Side_eqb (side x) s = false).
    { pose proof (Hnone x (or_introl eq_refl)) as Hx.
      destruct (side x), s; (reflexivity || congruence). }
    rewrite Es. cbn [negb]. apply IH. intros o Ho. apply Hnone. right. exact Ho.
Qed.

(** X10.  [new_orders] returns at most one SELL followed by at most one BUY.
    The SELL rests on the complement token at [_round_price (1 - ask_target)],
    the BUY on the buy-token at the bid target, and both have a size of at
    least [max(min_place_size, MIN_SIZE)]. *)
Theorem new_orders_shape `{K : Constants} (self : SafeSpread) (orders : list Order)
    (collateral_balance token_balance target_price : Q) (buy_token : Token) :
  constants_ok ->
  exists asks bids,
    new_orders self orders collateral_balance token_balance target_price buy_token
    = Some (asks ++ bids)
    /\ (length asks <= 1)%nat /\ (length bids <= 1)%nat
    /\ (forall n, In n asks ->
          side n = SELL /\ token n = complement buy_token
          /\ price n = _round_price (1 - side_target self target_price buy_token SELL)
          /\ floor_size self <= size n)
    /\ (forall n, In n bids ->
          side n = BUY /\ token n = buy_token
          /\ price n = side_target self target_price buy_token BUY
          /\ floor_size self <= size n).
Proof.
  intros Hok.
  destruct (new_orders_total self orders collateral_balance token_balance target_price
              buy_token Hok) as [l Hl].
  rewrite new_orders_unfold in Hl |- *. cbv zeta in Hl |- *.
  unfold side_target. cbv zeta.
  set (q := _desired_quotes self (_mid_with_skew self target_price buy_token)) in *.
  clearbody q.
  destruct (new_bid self orders collateral_balance (fst q) buy_token) as [bids|] eqn:Eb;
    [|discriminate].
  exists (new_ask self orders token_balance (snd q) buy_token), bids.
  split; [reflexivity|]. split; [apply new_ask_length|].
  split; [eapply new_bid_length, Eb|]. split.
  - intros n Hn. apply new_ask_inv in Hn. destruct Hn as (-> & _ & Hs).
    cbn [side token price size]. auto.
  - intros n Hn. destruct (new_bid_inv _ _ _ _ _ _ _ Eb Hn) as (sz & -> & _ & _ & Hs).
    cbn [side token price size]. auto.
Qed.

(** X11.  The SELL that [new_orders] places is priced at exactly one minus
    the ask target, and its effective price in buy-token space is the ask
    target again: the two price spaces map onto each other without loss. *)
Theorem sell_price_mirrors_ask `{K : Constants} (self : SafeSpread) (orders : list Order)
    (collateral_balance token_balance target_price : Q) (buy_token : Token) :
  constants_ok ->
  exists l,
    new_orders self orders collateral_balance token_balance target_price buy_token = Some l
    /\ forall n, In n l -> side n = SELL ->
         price n == 1 - side_target self target_price buy_token SELL
         /\ effective_price n == side_target self target_price buy_token SELL.
Proof.
  intros Hok.
  destruct (new_orders_total self orders collateral_balance token_balance target_price
              buy_token Hok) as [l Hl].
  exists l. split; [exact Hl|]. intros n Hn Hside.
  rewrite new_orders_unfold in Hl. cbv zeta in Hl. unfold side_target. cbv zeta.
  destruct (new_bid _ _ _ _ _) as [bids|] eqn:Eb; [|discriminate].
  injection Hl as <-. apply in_app_or in Hn. destruct Hn as [Hn | Hn].
  2:{ apply new_bid_sides with (n := n) in Eb; [congruence | exact Hn]. }
  apply new_ask_inv in Hn. destruct Hn as (-> & _ & _).
  unfold effective_price. cbn [side price]. split.
  - apply sell_price_complement, Hok.
  - apply sell_effective_price, Hok.
Qed.

(** X12.  Placement does not repeat itself: once the orders returned by
    [new_orders] rest in the book, a further call for the same target places
    nothing on the sides they cover, whatever the balances are by then. *)
Theorem placed_orders_suppress_replacement `{K : Constants} (self : SafeSpread)
    (orders l : list Order) (collateral_balance token_balance target_price : Q)
    (buy_token : Token) (collateral_balance' token_balance' : Q) :
  constants_ok ->
  new_orders self orders collateral_balance token_balance target_price buy_token = Some l ->
  exists l',
    new_orders self (orders ++ l) collateral_balance' token_balance' target_price buy_token
    = Some l'
    /\ forall n n', In n l -> In n' l' -> side n' <> side n.
Proof.
  intros Hok Hl. pose proof Hok as (H0 & _ & _).
  destruct (new_orders_total self (orders ++ l) collateral_balance' token_balance'
              target_price buy_token Hok) as [l' Hl'].
  exists l'. split; [exact Hl'|]. intros n n' Hn Hn'.
  rewrite new_orders_unfold in Hl, Hl'. cbv zeta in Hl, Hl'.
  pose proof (sell_effective_price self (_mid_with_skew self target_price buy_token) Hok)
    as Hmirror.
  set (q := _desired_quotes self (_mid_with_skew self target_price buy_token)) in *.
  clearbody q.
  destruct (new_bid self orders collateral_balance (fst q) buy_token) as [bids|] eqn:Eb;
    [|discriminate].
  destruct (new_bid self (orders ++ l) collateral_balance' (fst q) buy_token)
    as [bids'|] eqn:Eb'; [|discriminate].
  injection Hl as <-. injection Hl' as <-.
  assert (Hin : In n (orders ++ new_ask self orders token_balance (snd q) buy_token ++ bids))
    by (apply in_or_app; right; exact Hn).
  apply in_app_or in Hn. apply in_app_or in Hn'.
  destruct Hn as [Hn | Hn].
  - (* a SELL was placed *)
    pose proof (new_ask_sides _ _ _ _ _ _ Hn) as Hs.
    apply new_ask_inv in Hn. destruct Hn as (En & _ & _).
    assert (Hnear : has_near (orders ++ new_ask self orders token_balance (snd q) buy_token
                                ++ bids) SELL (snd q) = true).
    { apply (has_near_true _ SELL (snd q) n Hin Hs).
      rewrite En. unfold effective_price. cbn [side price].
      apply Qabs_Qle_condition. lra. }
    rewrite Hs. destruct Hn' as [Hn' | Hn'].
    + rewrite (new_ask_suppressed _ _ _ _ _ Hnear) in Hn'. destruct Hn'.
    + apply new_bid_sides with (n := n') in Eb'; [congruence | exact Hn'].
  - (* a BUY was placed *)
    destruct (new_bid_inv _ _ _ _ _ _ _ Eb Hn) as (sz & En & _).
    assert (Hs : side n = BUY) by (rewrite En; reflexivity).
    assert (Hnear : has_near (orders ++ new_ask self orders token_balance (snd q) buy_token
                                ++ bids) BUY (fst q) = true).
    { apply (has_near_true _ BUY (fst q) n Hin Hs).
      rewrite En. unfold effective_price. cbn [side price].
      apply Qabs_Qle_condition. lra. }
    rewrite Hs. destruct Hn' as [Hn' | Hn'].
    + apply new_ask_sides in Hn'. congruence.
    + rewrite (new_bid_suppressed _ _ _ _ _ Hnear) in Eb'. injection Eb' as <-.
      destruct Hn'.
Qed.

(** X13.  A BUY is placed only while [bid_target * order_size] fits
    [max_notional_per_side], and its size is at most
    [max(MIN_SIZE, order_size)] rounded to [MAX_DECIMALS]; so is the size of a
    SELL as long as the holdings of the complement token are within the
    inventory cap. *)
Theorem sizes_capped_by_order_size `{K : Constants} (self : SafeSpread)
    (orders : list Order) (collateral_balance token_balance target_price : Q)
    (buy_token : Token) :
  constants_ok ->
  exists l,
    new_orders self orders collateral_balance token_balance target_price buy_token = Some l
    /\ forall n, In n l ->
         (side n = BUY ->
          price n * order_size self <= max_notional_per_side self
          /\ size n <= py_round (Qmax MIN_SIZE (order_size self)) MAX_DECIMALS)
         /\ (side n = SELL ->
             holdings self (complement buy_token) <= max_inventory_per_token self ->
             size n <= py_round (Qmax MIN_SIZE (order_size self)) MAX_DECIMALS).
Proof.
  intros Hok.
  destruct (new_orders_total self orders collateral_balance token_balance target_price
              buy_token Hok) as [l Hl].
  exists l. split; [exact Hl|]. intros n Hn.
  rewrite new_orders_unfold in Hl. cbv zeta in Hl.
  destruct (new_bid _ _ _ _ _) as [bids|] eqn:Eb; [|discriminate].
  injection Hl as <-. apply in_app_or in Hn. destruct Hn as [Hn | Hn].
  - pose proof (new_ask_sides _ _ _ _ _ _ Hn) as Hs.
    split; [congruence|]. intros _ Hcap.
    apply new_ask_inv in Hn. destruct Hn as (-> & _ & _). cbn [size].
    unfold _ask_size, _clamp. apply py_round_mono.
    apply Qltb_false in Hcap. rewrite Hcap. minmax.
  - destruct (new_bid_inv _ _ _ _ _ _ _ Eb Hn) as (sz & -> & Hc & Hs & _).
    split; [|discriminate]. intros _. cbn [price size].
    apply can_place_bid_inv in Hc. destruct Hc as (_ & Hnot & _).
    apply bid_size_inv in Hs. destruct Hs as [_ ->].
    split; [exact Hnot|]. apply py_round_mono. unfold _clamp. minmax.
Qed.

(** X14.  Placement fails closed: with a sellable balance under the minimum
    size and a BUY that is rejected (collateral below
    [bid_target * max(min_place_size, MIN_SIZE)], or
    [bid_target * order_size] above [max_notional_per_side], or holdings at
    the inventory cap), [new_orders] returns the empty list. *)
Theorem rejected_sides_place_nothing `{K : Constants} (self : SafeSpread)
    (orders : list Order) (collateral_balance token_balance target_price : Q)
    (buy_token : Token) :
  token_balance < floor_size self ->
  collateral_balance < side_target self target_price buy_token BUY * floor_size self
  \/ max_notional_per_side self
     < side_target self target_price buy_token BUY * order_size self
  \/ max_inventory_per_token self <= holdings self buy_token ->
  new_orders self orders collateral_balance token_balance target_price buy_token = Some [].
Proof.
  unfold side_target, floor_size. cbv zeta. apply new_orders_rejected.
Qed.

End PlacementMoreFacts.

(** * Further properties of the strategy wrapper *)

Module StrategyFacts.
Import RoundFacts PriceFacts QuoteFacts PlacementFacts SizingFacts CollateralFacts
       SortFacts CancelFacts QuoteMoreFacts CancelMoreFacts PlacementMoreFacts.

Lemma Token_eqb_eq (a b : Token) : Token_eqb a b = true <-> a = b.
Proof. destruct a, b; simpl; split; (reflexivity || discriminate). Qed.

Lemma Side_eqb_eq (a b : Side) : Side_eqb a b = true <-> a = b.
Proof. destruct a, b; simpl; split; (reflexivity || discriminate). Qed.

Lemma filter_pair_exclusive (o : Order) (t : Token) :
  _filter_by_corresponding_buy_token o t
  = negb (_filter_by_corresponding_buy_token o (complement t)).
Proof.
  unfold _filter_by_corresponding_buy_token.
  destruct (side o), (token o), t; reflexivity.
Qed.

Lemma orders_by_token_In (l : list Order) (t : Token) (o : Order) :
  In o (_orders_by_corresponding_buy_token l t) ->
  In o l /\ match side o with BUY => token o = t | SELL => token o = complement t end.
Proof.
  unfold _orders_by_corresponding_buy_token, _filter_by_corresponding_buy_token.
  rewrite filter_In. intros [Hin Hb]. split; [exact Hin|].
  destruct (side o), (token o), t; (reflexivity || discriminate).
Qed.

Lemma orders_by_token_pair (l : list Order) (t : Token) :
  pair_of t (_orders_by_corresponding_buy_token l t).
Proof. intros o Ho. apply orders_by_token_In in Ho. tauto. Qed.

Section WithConstants.
Context `{K : Constants}.

Lemma cancel_phase_unfold (mm : SafeSpread) (bto : Token -> list Order) (tp : Token -> Q) :
  cancel_phase mm bto tp
  = cancellable_orders mm (bto A) (tp A) ++ cancellable_orders mm (bto B) (tp B).
Proof. reflexivity. Qed.

(** Which side and token a placement call for [bt] can emit. *)
Lemma new_orders_side_token (self : SafeSpread) orders c tb tp bt l (s : Side) (t : Token) :
  new_orders self orders c tb tp bt = Some l ->
  (length (on_side_token s t l)
   <= if match s with
         | BUY => Token_eqb t bt
         | SELL => Token_eqb t (complement bt)
         end then 1 else 0)%nat.
Proof.
  intros Hl. apply new_orders_parts in Hl.
  destruct Hl as (asks & bids & -> & Ha & Hb & Hasks & Hbids).
  unfold on_side_token. rewrite filter_app, length_app.
  set (f := fun o : Order => Side_eqb (side o) s && Token_eqb (token o) t).
  pose proof (filter_length_le f asks) as La.
  pose proof (filter_length_le f bids) as Lb.
  assert (Za : s = BUY \/ t <> complement bt -> List.filter f asks = []).
  { intros Hcase. apply filter_none. intros n Hn.
    destruct (Hasks n Hn) as [-> _]. unfold f. cbn [side token].
    destruct Hcase as [-> | Hne]; [reflexivity|].
    destruct s; [reflexivity|]. cbn [Side_eqb andb].
    destruct (Token_eqb (complement bt) t) eqn:E; [|reflexivity].
    apply Token_eqb_eq in E. congruence. }
  assert (Zb : s = SELL \/ t <> bt -> List.filter f bids = []).
  { intros Hcase. apply filter_none. intros n Hn.
    destruct (Hbids n Hn) as [Hs Ht]. unfold f. rewrite Hs, Ht.
    destruct Hcase as [-> | Hne]; [reflexivity|].
    destruct s; [|reflexivity]. cbn [Side_eqb andb].
    destruct (Token_eqb bt t) eqn:E; [|reflexivity].
    apply Token_eqb_eq in E. congruence. }
  destruct s.
  - rewrite Za by (left; reflexivity). cbn [length].
    destruct (Token_eqb t bt) eqn:E; [lia|].
    rewrite Zb; [cbn [length]; lia|]. right. intros ->.
    destruct bt; discriminate.
  - rewrite Zb by (left; reflexivity). cbn [length].
    destruct (Token_eqb t (complement bt)) eqn:E; [lia|].
    rewrite Za; [cbn [length]; lia|]. right. intros ->.
    destruct bt; discriminate.
Qed.

(** The two iterations of the placement loop. *)
Lemma placement_loop_two (mm : SafeSpread) (bto : Token -> list Order)
    (ftb tp : Token -> Q) (c : Q) (c' : Q) (place : list Order) :
  placement_loop mm bto ftb tp all_tokens c [] = Some (c', place) ->
  exists newA newB,
    place = newA ++ newB
    /\ new_orders mm (bto A) c (ftb B) (tp A) A = Some newA
    /\ new_orders mm (bto B) (c - buy_notional newA) (ftb A) (tp B) B = Some newB.
Proof.
  unfold all_tokens. cbn [placement_loop complement]. cbv zeta.
  destruct (new_orders mm (bto A) c (ftb B) (tp A) A) as [newA|] eqn:EA; [|discriminate].
  cbn [app].
  destruct (new_orders mm (bto B) _ (ftb A) (tp B) B) as [newB|] eqn:EB; [|discriminate].
  intros [= _ <-]. exists newA, newB. split; [reflexivity|]. split; [reflexivity | exact EB].
Qed.

Lemma get_orders_inv (mm : SafeSpread) (ob : OrderBook) (tp : Token -> Q)
    (mm' : SafeSpread) (cancel place : list Order) :
  get_orders mm ob tp = Some (mm', (cancel, place)) ->
  let bto := fun t => _orders_by_corresponding_buy_token (orders ob) t in
  let ftb := fun t => balances ob t
                      - locked_sells_by_token (open_orders_of ob cancel) t in
  cancel = cancel_phase mm bto tp
  /\ mm' = set_context mm (list_to_map (map (fun t => (t, balances ob t)) all_tokens))
                       (free_collateral_at_start ob cancel)
  /\ exists c',
       placement_loop mm' bto ftb tp all_tokens (free_collateral_at_start ob cancel) []
       = Some (c', place).
Proof.
  unfold get_orders. cbv zeta.
  destruct (placement_loop _ _ _ _ _ _ _) as [[c' pl]|] eqn:E; [|discriminate].
  intros [= <- <- <-]. split; [reflexivity|]. split; [reflexivity|].
  exists c'. exact E.
Qed.

Lemma get_orders_total (mm : SafeSpread) (ob : OrderBook) (tp : Token -> Q) :
  constants_ok -> exists r, get_orders mm ob tp = Some r.
Proof.
  intros Hok. unfold get_orders. cbv zeta.
  match goal with
  | |- context [placement_loop ?m ?b ?f ?t ?ts ?c ?a] =>
      destruct (placement_loop_total m b f t ts Hok c a) as [[c' pl] ->]
  end.
  eauto.
Qed.

End WithConstants.

(** X15.  Every resting order belongs to exactly one of the two pairs: the
    lists gathered for the two buy-tokens split the order book, each holds
    only BUYs on its token and SELLs on the complement, and when one is not
    empty the buy-token [cancellable_orders] infers from it is that pair's
    token. *)
Theorem pairs_partition_orders (l : list Order) (t : Token) :
  (forall o, _filter_by_corresponding_buy_token o t
             = negb (_filter_by_corresponding_buy_token o (complement t)))
  /\ (length (_orders_by_corresponding_buy_token l A)
      + length (_orders_by_corresponding_buy_token l B) = length l)%nat
  /\ pair_of t (_orders_by_corresponding_buy_token l t)
  /\ (_orders_by_corresponding_buy_token l t <> [] ->
      deduce_buy_token (_orders_by_corresponding_buy_token l t) = Some t).
Proof.
  split; [|split; [|split]].
  - intros o. apply filter_pair_exclusive.
  - unfold _orders_by_corresponding_buy_token.
    induction l as [|o l IH]; [reflexivity|].
    cbn [List.filter]. rewrite (filter_pair_exclusive o A). cbn [complement].
    destruct (_filter_by_corresponding_buy_token o B); cbn [negb length]; lia.
  - apply orders_by_token_pair.
  - apply deduce_buy_token_pair, orders_by_token_pair.
Qed.

(** X16.  [get_orders] only cancels orders that rest in the order book, and on
    an order book without repetition it cancels no order twice. *)
Theorem cycle_cancellations_within_book `{K : Constants} (mm : SafeSpread)
    (ob : OrderBook) (target_prices : Token -> Q) :
  constants_ok ->
  exists mm' orders_to_cancel orders_to_place,
    get_orders mm ob target_prices = Some (mm', (orders_to_cancel, orders_to_place))
    /\ (forall o, In o orders_to_cancel -> In o (orders ob))
    /\ (NoDup (orders ob) -> NoDup orders_to_cancel).
Proof.
  intros Hok. destruct (get_orders_total mm ob target_prices Hok) as [[mm' [cancel place]] Hg].
  exists mm', cancel, place. split; [exact Hg|].
  apply get_orders_inv in Hg. cbv zeta in Hg. destruct Hg as (-> & _ & _).
  rewrite cancel_phase_unfold. split.
  - intros o Ho. apply in_app_or in Ho.
    destruct Ho as [Ho | Ho]; apply cancellable_orders_In, orders_by_token_In in Ho; tauto.
  - intros Hnd. apply NoDup_app.
    + apply cancellable_orders_NoDup. apply NoDup_filter, Hnd.
    + apply cancellable_orders_NoDup. apply NoDup_filter, Hnd.
    + intros o HA HB.
      apply cancellable_orders_In, orders_by_token_In in HA.
      apply cancellable_orders_In, orders_by_token_In in HB.
      destruct HA as [_ HA], HB as [_ HB]. destruct (side o), (token o); discriminate.
Qed.

(** X17.  One cycle places at most one order for each side and token (at
    most one BUY and one SELL per token), hence at most four orders. *)
Theorem cycle_places_one_order_per_side_token `{K : Constants} (mm : SafeSpread)
    (ob : OrderBook) (target_prices : Token -> Q) :
  constants_ok ->
  exists mm' orders_to_cancel orders_to_place,
    get_orders mm ob target_prices = Some (mm', (orders_to_cancel, orders_to_place))
    /\ (forall s t, (length (on_side_token s t orders_to_place) <= 1)%nat)
    /\ (length orders_to_place <= 4)%nat.
Proof.
  intros Hok. destruct (get_orders_total mm ob target_prices Hok) as [[mm' [cancel place]] Hg].
  exists mm', cancel, place. split; [exact Hg|].
  apply get_orders_inv in Hg. cbv zeta in Hg. destruct Hg as (_ & _ & c' & Hloop).
  apply placement_loop_two in Hloop. destruct Hloop as (newA & newB & -> & HA & HB).
  split.
  - intros s t. unfold on_side_token. rewrite filter_app, length_app.
    pose proof (new_orders_side_token _ _ _ _ _ _ _ s t HA) as LA.
    pose proof (new_orders_side_token _ _ _ _ _ _ _ s t HB) as LB.
    unfold on_side_token in LA, LB. cbn [complement] in LA, LB.
    destruct s, t; cbn [Token_eqb] in LA, LB; lia.
  - apply new_orders_parts in HA, HB.
    destruct HA as (a1 & b1 & -> & ? & ? & _), HB as (a2 & b2 & -> & ? & ? & _).
    rewrite !length_app. lia.
Qed.

(** X18.  A SELL placed in a cycle rests on a token whose free balance (the
    balance held minus the sizes of the SELLs on that token that survive
    cancellation) is at least [max(min_place_size, MIN_SIZE)], and its size
    is at most that free balance rounded to [MAX_DECIMALS]. *)
Theorem cycle_sells_within_free_inventory `{K : Constants} (mm : SafeSpread)
    (ob : OrderBook) (target_prices : Token -> Q) :
  constants_ok ->
  exists mm' orders_to_cancel orders_to_place,
    get_orders mm ob target_prices = Some (mm', (orders_to_cancel, orders_to_place))
    /\ forall n, In n orders_to_place -> side n = SELL ->
         let free :=
           balances ob (token n)
           - locked_sells_by_token (open_orders_of ob orders_to_cancel) (token n) in
         floor_size mm <= free /\ size n <= py_round free MAX_DECIMALS.
Proof.
  intros Hok. destruct (get_orders_total mm ob target_prices Hok) as [[mm' [cancel place]] Hg].
  exists mm', cancel, place. split; [exact Hg|].
  apply get_orders_inv in Hg. cbv zeta in Hg. destruct Hg as (_ & Emm & c' & Hloop).
  apply placement_loop_two in Hloop. destruct Hloop as (newA & newB & -> & HA & HB).
  assert (Efloor : forall tb, Qmax (min_place_size mm') MIN_SIZE <= tb -> floor_size mm <= tb).
  { intros tb. rewrite Emm. unfold floor_size. cbn [min_place_size set_context]. tauto. }
  assert (Hone : forall bt c new n,
             new_orders mm' (_orders_by_corresponding_buy_token (orders ob) bt) c
               (balances ob (complement bt)
                - locked_sells_by_token (open_orders_of ob cancel) (complement bt))
               (target_prices bt) bt = Some new ->
             In n new -> side n = SELL ->
             floor_size mm
             <= balances ob (token n)
                - locked_sells_by_token (open_orders_of ob cancel) (token n)
             /\ size n
                <= py_round (balances ob (token n)
                             - locked_sells_by_token (open_orders_of ob cancel) (token n))
                            MAX_DECIMALS).
  { intros bt c new n Hnew Hn Hs. apply new_orders_parts in Hnew.
    destruct Hnew as (asks & bids & -> & _ & _ & Hasks & Hbids).
    apply in_app_or in Hn. destruct Hn as [Hn | Hn].
    2:{ destruct (Hbids n Hn) as [Hb _]. congruence. }
    destruct (Hasks n Hn) as [-> Hfl]. cbn [token size]. split.
    - apply Efloor, Hfl.
    - apply ask_size_upper. revert Hfl. minmax. }
  intros n Hn Hs. cbv zeta. apply in_app_or in Hn.
  destruct Hn as [Hn | Hn]; [exact (Hone A _ _ n HA Hn Hs) | exact (Hone B _ _ n HB Hn Hs)].
Qed.

(** X21.  With no resting order, no collateral and token balances under the
    minimum size, a cycle cancels nothing and places nothing. *)
Theorem idle_cycle `{K : Constants} (mm : SafeSpread) (ob : OrderBook)
    (target_prices : Token -> Q) :
  constants_ok ->
  0 < floor_size mm ->
  orders ob = [] ->
  collateral ob <= 0 ->
  (forall t, balances ob t < floor_size mm) ->
  exists mm', get_orders mm ob target_prices = Some (mm', ([], [])).
Proof.
  intros Hok Hfl Ho Hc Hb. pose proof Hok as (H0 & _).
  unfold get_orders. cbv zeta. rewrite Ho.
  cbn [_orders_by_corresponding_buy_token List.filter].
  rewrite cancel_phase_unfold. cbn [cancellable_orders app].
  unfold open_orders_of, free_collateral_at_start, open_orders_of. rewrite Ho.
  cbn [List.filter]. unfold locked_sells_by_token. cbn [fold_left].
  set (mm' := set_context mm _ _).
  assert (Hrej : forall c bt,
             c <= 0 ->
             new_orders mm' [] c (balances ob (complement bt) - 0) (target_prices bt) bt
             = Some []).
  { intros c bt Hc0. apply new_orders_rejected.
    - unfold mm'. cbn [min_place_size set_context]. specialize (Hb (complement bt)).
      unfold floor_size in Hb. lra.
    - left.
      pose proof (bid_target_range mm' (_mid_with_skew mm' (target_prices bt) bt) Hok)
        as [Hl _].
      set (p := fst _) in *.
      assert (Hpos : 0 < p * Qmax (min_place_size mm') MIN_SIZE).
      { apply Qmult_lt_0_compat; [lra|]. unfold mm'. cbn [min_place_size set_context].
        exact Hfl. }
      lra. }
  unfold all_tokens. cbn [placement_loop complement]. cbv zeta.
  assert (Ec : collateral ob - buy_notional [] <= 0) by (unfold buy_notional; cbn; lra).
  pose proof (Hrej _ A Ec) as HA. cbn [complement] in HA. rewrite HA. cbn [app].
  assert (Ec' : collateral ob - buy_notional [] - buy_notional [] <= 0)
    by (unfold buy_notional; cbn; lra).
  pose proof (Hrej _ B Ec') as HB. cbn [complement] in HB. rewrite HB. eauto.
Qed.

End StrategyFacts.

(** * Sizing edges, quiet books and ties *)

Module EdgeFacts.
Import RoundFacts PriceFacts QuoteFacts PlacementFacts SizingFacts SortFacts CancelFacts
       CancelMoreFacts.

Section Stability.
Context {X : Type} (f : X -> Q).

Lemma precedes_In_r (x y : X) (l : list X) : precedes x y l -> In y l.
Proof.
  induction l as [|z r IH]; [intros []|].
  intros [[_ H] | H]; [right; exact H | right; apply IH, H].
Qed.

Lemma precedes_insert_old (a x y : X) (l : list X) :
  precedes x y l -> precedes x y (insert_by_key f a l).
Proof.
  induction l as [|z r IH]; [intros []|].
  intros H. cbn [insert_by_key]. destruct (Qleb (f a) (f z)).
  - right. exact H.
  - destruct H as [[-> H] | H].
    + left. split; [reflexivity|]. apply insert_by_key_In. right. exact H.
    + right. apply IH, H.
Qed.

Lemma precedes_insert_new (a y : X) (l : list X) :
  In y l -> f a <= f y -> precedes a y (insert_by_key f a l).
Proof.
  induction l as [|z r IH]; [intros []|].
  intros Hy Hle. cbn [insert_by_key]. destruct (Qleb (f a) (f z)) eqn:E.
  - left. split; [reflexivity | exact Hy].
  - apply Qleb_false in E. right. apply IH; [|exact Hle].
    destruct Hy as [-> | Hy]; [exfalso; lra | exact Hy].
Qed.

(** The sort is stable: an element listed before one that is no smaller stays
    before it. *)
Lemma sort_by_key_stable (x y : X) (l : list X) :
  precedes x y l -> f x <= f y -> precedes x y (sort_by_key f l).
Proof.
  induction l as [|z r IH]; [intros []|].
  intros H Hle. cbn [sort_by_key fold_right]. fold (sort_by_key f r).
  destruct H as [[-> H] | H].
  - apply precedes_insert_new; [|exact Hle]. apply sort_by_key_In, H.
  - apply precedes_insert_old, IH; assumption.
Qed.

Lemma precedes_filter (g : X -> bool) (x y : X) (l : list X) :
  precedes x y l -> g x = true -> g y = true -> precedes x y (List.filter g l).
Proof.
  intros H Hx Hy. induction l as [|z r IH]; [destruct H|].
  cbn [List.filter]. destruct H as [[-> H] | H].
  - rewrite Hx. left. split; [reflexivity|]. apply filter_In. split; assumption.
  - destruct (g z); [right|]; apply IH, H.
Qed.

Lemma precedes_skipn (x y : X) (l : list X) (n : nat) :
  NoDup l -> precedes x y l -> In x (skipn n l) -> In y (skipn n l).
Proof.
  revert n. induction l as [|z r IH]; intros n Hnd H Hx; [destruct H|].
  destruct n as [|n]; [apply (precedes_In_r x y), H|].
  cbn [skipn] in *. inversion Hnd as [|? ? Hz Hr]; subst.
  destruct H as [[-> _] | H].
  - exfalso. apply Hz, (skipn_In n r x), Hx.
  - apply IH; assumption.
Qed.

End Stability.

Section WithConstants.
Context `{K : Constants}.

(** Orders that are equal by value are equally far from the targets. *)
Lemma closeness_by_value (bt at' : Q) (o x : Order) :
  Order_eqb o x = true -> closeness bt at' o == closeness bt at' x.
Proof.
  unfold Order_eqb, Qeqb. intros H.
  apply andb_prop in H. destruct H as [H Ht].
  apply andb_prop in H. destruct H as [H Hs].
  apply andb_prop in H. destruct H as [Hp _].
  apply Qeq_bool_iff in Hp.
  assert (Es : side o = side x) by (destruct (side o), (side x); (reflexivity || discriminate)).
  unfold closeness, effective_price. rewrite <- Es. destruct (side o).
  - apply Qabs_wd. lra.
  - apply Qabs_wd.
    assert (E : 1 - price o == 1 - price x) by lra.
    pose proof (py_round_proper _ _ MAX_DECIMALS E). lra.
Qed.

Lemma order_in_far_false (self : SafeSpread) (bt at' : Q) (orders : list Order) (o : Order) :
  closeness bt at' o <= cancel_if_away_by self ->
  order_in o (far_aways_of self bt at' orders) = false.
Proof.
  intros Hc. destruct (order_in _ _) eqn:E; [|reflexivity].
  apply existsb_exists in E. destruct E as (x & Hx & Heq).
  apply filter_In in Hx. destruct Hx as [_ Hx]. apply Qltb_true in Hx.
  pose proof (closeness_by_value bt at' o x Heq). exfalso. lra.
Qed.

(** When nothing is far and both sides are within their caps, nothing is
    cancelled. *)
Lemma quiet_cancel (self : SafeSpread) (orders : list Order) (tp : Q) (t : Token) :
  deduce_buy_token orders = Some t ->
  (forall o, In o orders ->
     closeness (fst (_desired_quotes self (_mid_with_skew self tp t)))
               (snd (_desired_quotes self (_mid_with_skew self tp t))) o
     <= cancel_if_away_by self) ->
  (Z.of_nat (count_side BUY orders) <= max_bids self)%Z ->
  (Z.of_nat (count_side SELL orders) <= max_asks self)%Z ->
  cancellable_orders self orders tp = [].
Proof.
  intros Et Hnear Hb Ha.
  rewrite (cancellable_orders_unfold self orders tp t Et). cbv zeta.
  set (q := _desired_quotes self (_mid_with_skew self tp t)) in *.
  assert (Efar : far_aways_of self (fst q) (snd q) orders = []).
  { unfold far_aways_of. apply filter_none. intros o Ho.
    apply Qltb_false, Hnear, Ho. }
  rewrite Efar.
  assert (Hlen : forall s, length (keep_of s [] orders) = count_side s orders).
  { intros s. unfold keep_of, count_side. f_equal. apply filter_ext.
    intros o. cbn [order_in existsb negb]. apply andb_true_r. }
  assert (Hex : forall s (n : Z),
             (Z.of_nat (count_side s orders) <= n)%Z ->
             excess (sort_by_key (closeness (fst q) (snd q)) (keep_of s [] orders)) n = []).
  { intros s n Hc. unfold excess. rewrite sort_by_key_length, Hlen.
    destruct (n <? Z.of_nat (count_side s orders))%Z eqn:E; [|reflexivity].
    apply Z.ltb_lt in E. lia. }
  rewrite (Hex BUY _ Hb), (Hex SELL _ Ha). reflexivity.
Qed.

End WithConstants.

(** X22.  [_bid_size] fails exactly when the price is zero; otherwise its
    result has at most [MAX_DECIMALS] decimals and is never below [MIN_SIZE]
    rounded to [MAX_DECIMALS], whatever the collateral, the notional cap and
    the headroom are. *)
Theorem bid_size_edges `{K : Constants} (self : SafeSpread)
    (collateral_balance price : Q) (buy_token : Token) :
  (_bid_size self collateral_balance price buy_token = None <-> price == 0)
  /\ forall sz, _bid_size self collateral_balance price buy_token = Some sz ->
       on_grid MAX_DECIMALS sz /\ py_round MIN_SIZE MAX_DECIMALS <= sz.
Proof.
  split.
  - unfold _bid_size. destruct (Qeqb price 0) eqn:E.
    + apply Qeq_bool_iff in E. tauto.
    + apply Qeq_bool_neq in E. split; [discriminate | tauto].
  - intros sz Hs. apply bid_size_inv in Hs. destruct Hs as [_ ->]. split.
    + apply py_round_on_grid.
    + apply py_round_mono. unfold _clamp. minmax.
Qed.

(** X23.  [_ask_size] is never below [MIN_SIZE] rounded to [MAX_DECIMALS] and
    never above [max(MIN_SIZE, token_balance)] rounded; with a balance under
    [MIN_SIZE] it is [MIN_SIZE] rounded, more than can be sold, which is why
    [new_orders] asks [_can_place_ask] first. *)
Theorem ask_size_edges `{K : Constants} (self : SafeSpread) (token_balance : Q) (t : Token) :
  py_round MIN_SIZE MAX_DECIMALS <= _ask_size self token_balance t
  /\ _ask_size self token_balance t <= py_round (Qmax MIN_SIZE token_balance) MAX_DECIMALS
  /\ (token_balance < MIN_SIZE ->
      _ask_size self token_balance t == py_round MIN_SIZE MAX_DECIMALS).
Proof.
  assert (Hl : py_round MIN_SIZE MAX_DECIMALS <= _ask_size self token_balance t).
  { unfold _ask_size, _clamp. apply py_round_mono. destruct (Qltb _ _); minmax. }
  assert (Hu : _ask_size self token_balance t
               <= py_round (Qmax MIN_SIZE token_balance) MAX_DECIMALS).
  { unfold _ask_size, _clamp. apply py_round_mono. destruct (Qltb _ _); minmax. }
  repeat split; try assumption.
  intros Htb.
  assert (E : Qmax MIN_SIZE token_balance == MIN_SIZE) by minmax.
  pose proof (py_round_proper _ _ MAX_DECIMALS E). lra.
Qed.

(** X24.  A quiet book is left alone: when every order of the list is
    strictly within [cancel_if_away_by] of its side's target and the list
    holds at most [max_bids] BUYs and [max_asks] SELLs, [cancellable_orders]
    returns the empty list. *)
Theorem quiet_book_cancels_nothing `{K : Constants} (self : SafeSpread)
    (orders : list Order) (target_price bid_target ask_target : Q) :
  pair_targets self orders target_price = Some (bid_target, ask_target) ->
  (forall o, In o orders ->
     closeness bid_target ask_target o < cancel_if_away_by self) ->
  (Z.of_nat (count_side BUY orders) <= max_bids self)%Z ->
  (Z.of_nat (count_side SELL orders) <= max_asks self)%Z ->
  cancellable_orders self orders target_price = [].
Proof.
  unfold pair_targets. intros Hq Hnear Hb Ha.
  destruct (deduce_buy_token orders) as [t|] eqn:Et; [|discriminate].
  apply (quiet_cancel self orders target_price t Et); try assumption.
  intros o Ho.
  assert (Hq' : _desired_quotes self (_mid_with_skew self target_price t)
                = (bid_target, ask_target)) by congruence.
  rewrite Hq'. cbn [fst snd]. apply Qlt_le_weak, Hnear, Ho.
Qed.

(** X25.  Among orders of one side resting at the same price the one listed
    first is preferred (the sort is stable): on a list without repetition, if
    an order is cancelled, then every order of its side and price listed
    after it is cancelled too. *)
Theorem earlier_order_wins_ties `{K : Constants} (self : SafeSpread)
    (orders : list Order) (target_price bid_target ask_target : Q) (o1 o2 : Order) :
  NoDup orders ->
  pair_targets self orders target_price = Some (bid_target, ask_target) ->
  precedes o1 o2 orders ->
  side o1 = side o2 ->
  price o1 == price o2 ->
  In o1 (cancellable_orders self orders target_price) ->
  In o2 (cancellable_orders self orders target_price).
Proof.
  unfold pair_targets. intros Hnd Hq Hprec Hside Hprice.
  destruct (deduce_buy_token orders) as [t|] eqn:Et; [|discriminate].
  rewrite (cancellable_orders_unfold self orders target_price t Et). cbv zeta.
  assert (Hq' : _desired_quotes self (_mid_with_skew self target_price t)
                = (bid_target, ask_target)) by congruence.
  rewrite Hq'. cbn [fst snd]. clear Hq Hq'.
  assert (Ekey : closeness bid_target ask_target o1 == closeness bid_target ask_target o2).
  { unfold closeness, effective_price. rewrite Hside. destruct (side o2).
    - apply Qabs_wd. lra.
    - apply Qabs_wd.
      assert (E : 1 - price o1 == 1 - price o2) by lra.
      pose proof (py_round_proper _ _ MAX_DECIMALS E). lra. }
  set (key := closeness bid_target ask_target) in *.
  set (far := far_aways_of self bid_target ask_target orders).
  destruct (Qltb (cancel_if_away_by self) (key o2)) eqn:Efar.
  { (* both are far *)
    intros _. apply in_or_app. left. apply filter_In. split; [|exact Efar].
    apply (precedes_In_r o1 o2), Hprec. }
  apply Qltb_false in Efar.
  assert (Hf1 : order_in o1 far = false) by (apply order_in_far_false; fold key; lra).
  assert (Hf2 : order_in o2 far = false) by (apply order_in_far_false; fold key; lra).
  (* the ranking of the side of the two orders *)
  assert (Hrank : forall s n,
             side o1 = s ->
             In o1 (excess (sort_by_key key (keep_of s far orders)) n) ->
             In o2 (excess (sort_by_key key (keep_of s far orders)) n)).
  { intros s n Hs. destruct (excess_is_skipn (sort_by_key key (keep_of s far orders)) n)
      as [k ->].
    apply precedes_skipn.
    - apply sort_by_key_NoDup, NoDup_filter, Hnd.
    - apply sort_by_key_stable; [|lra]. unfold keep_of.
      apply precedes_filter; [exact Hprec | |].
      + rewrite Hs, Hf1. destruct s; reflexivity.
      + rewrite <- Hside, Hs, Hf2. destruct s; reflexivity. }
  intros H1. apply in_app_or in H1. destruct H1 as [H1 | H1].
  { apply order_in_In in H1. congruence. }
  apply in_or_app. right. apply in_app_or in H1. apply in_or_app.
  destruct H1 as [H1 | H1].
  - left. apply Hrank; [|exact H1].
    apply excess_In, sort_by_key_In, keep_of_In in H1. tauto.
  - right. apply Hrank; [|exact H1].
    apply excess_In, sort_by_key_In, keep_of_In in H1. tauto.
Qed.

End EdgeFacts.

(** ** The further properties at concrete inputs *)

Module MoreExamples.
Import RoundFacts PriceFacts QuoteFacts PlacementFacts SizingFacts SortFacts CancelFacts
       QuoteMoreFacts CancelMoreFacts PlacementMoreFacts StrategyFacts EdgeFacts.

Ltac reference_ok :=
  unfold constants_ok; cbn; repeat split; try reflexivity; exists 1%Z; reflexivity.

Ltac distinct_orders :=
  repeat (constructor; [cbn; intuition discriminate|]); constructor.

Lemma round_price_monotone_idempotent_witness :
  @_round_price reference_constants (1 # 3) <= @_round_price reference_constants (1 # 2)
  /\ @_round_price reference_constants (@_round_price reference_constants (1 # 3))
     == @_round_price reference_constants (1 # 3).
Proof.
  apply (@round_price_monotone_idempotent reference_constants (1 # 3) (1 # 2)).
  - reference_ok.
  - vm_compute. discriminate.
Defined.

Lemma more_inventory_lowers_bid_witness :
  @_mid_with_skew reference_constants
     (set_context default_engine {[ A := 30 ]} 0) (1 # 2) A
  <= @_mid_with_skew reference_constants
       (set_context default_engine {[ A := 0 ]} 0) (1 # 2) A
  /\ @side_target reference_constants
       (set_context default_engine {[ A := 30 ]} 0) (1 # 2) A BUY
     <= @side_target reference_constants
          (set_context default_engine {[ A := 0 ]} 0) (1 # 2) A BUY.
Proof.
  apply (@more_inventory_lowers_bid reference_constants default_engine
           {[ A := 0 ]} {[ A := 30 ]} 0 0 (1 # 2) A).
  - vm_compute. discriminate.
  - vm_compute. discriminate.
Defined.

Lemma no_inventory_no_skew_witness :
  @_mid_with_skew reference_constants engine_no_balances (1 # 2) A
  == @_round_price reference_constants (1 # 2).
Proof.
  apply (@no_inventory_no_skew reference_constants engine_no_balances ∅ (1 # 2) A).
  left. reflexivity.
Defined.

Lemma desired_quotes_ordered_witness :
  let q := @_desired_quotes reference_constants default_engine 2 in
  1 # 100 <= fst q <= 1 - (1 # 100)
  /\ 1 # 100 <= snd q <= 1 - (1 # 100)
  /\ on_grid 2 (fst q) /\ on_grid 2 (snd q)
  /\ fst q <= snd q
  /\ (fst q == snd q -> fst q == 1 - (1 # 100)).
Proof.
  apply (@desired_quotes_ordered reference_constants default_engine 2). reference_ok.
Defined.

Lemma quoted_spread_width_witness :
  let q := @_desired_quotes reference_constants engine_spread_004 (1 # 2) in
  2 * @effective_half reference_constants engine_spread_004
  - 2 * @half_unit reference_constants <= snd q - fst q
  /\ snd q - fst q
     <= 2 * @effective_half reference_constants engine_spread_004
        + 2 * @half_unit reference_constants.
Proof.
  apply (@quoted_spread_width reference_constants engine_spread_004 (1 # 2)).
  - reference_ok.
  - vm_compute. discriminate.
  - vm_compute. discriminate.
Defined.

(** The scenario of the specification: a BUY at 0.30 against a bid target of
    0.48 with [cancel_if_away_by = 0.02] is cancelled. *)
Lemma cancellations_within_input_witness :
  In (mkOrder (30 # 100) 10 BUY A)
     (@cancellable_orders reference_constants engine_one_bid resting_orders (1 # 2)).
Proof.
  eapply (proj2 (@cancellations_within_input reference_constants engine_one_bid
                   resting_orders (1 # 2))).
  - vm_compute. reflexivity.
  - right. right. left. reflexivity.
  - vm_compute. reflexivity.
Defined.

Lemma cancellations_without_repetition_witness :
  NoDup (@cancellable_orders reference_constants engine_one_bid resting_orders (1 # 2)).
Proof.
  apply (@cancellations_without_repetition reference_constants engine_one_bid
           resting_orders (1 # 2)).
  unfold resting_orders, buy_0479. distinct_orders.
Defined.

Lemma second_pass_cancels_nothing_witness :
  @cancellable_orders reference_constants engine_one_bid
    (@survivors reference_constants engine_one_bid resting_orders (1 # 2)) (1 # 2) = [].
Proof.
  apply (@second_pass_cancels_nothing reference_constants engine_one_bid resting_orders
           (1 # 2) A).
  - intros o [<- | [<- | [<- | [<- | []]]]]; reflexivity.
  - vm_compute. discriminate.
  - vm_compute. discriminate.
Defined.

Lemma new_orders_shape_witness :
  exists asks bids,
    @new_orders reference_constants engine_spread_004 [] 100 100 (1 # 2) A
    = Some (asks ++ bids)
    /\ (length asks <= 1)%nat /\ (length bids <= 1)%nat
    /\ (forall n, In n asks ->
          side n = SELL /\ token n = B
          /\ price n = @_round_price reference_constants
                         (1 - @side_target reference_constants engine_spread_004
                                (1 # 2) A SELL)
          /\ @floor_size reference_constants engine_spread_004 <= size n)
    /\ (forall n, In n bids ->
          side n = BUY /\ token n = A
          /\ price n = @side_target reference_constants engine_spread_004 (1 # 2) A BUY
          /\ @floor_size reference_constants engine_spread_004 <= size n).
Proof.
  apply (@new_orders_shape reference_constants engine_spread_004 [] 100 100 (1 # 2) A).
  reference_ok.
Defined.

Lemma sell_price_mirrors_ask_witness :
  exists l,
    @new_orders reference_constants engine_spread_004 [] 100 100 (1 # 2) A = Some l
    /\ forall n, In n l -> side n = SELL ->
         price n == 1 - @side_target reference_constants engine_spread_004 (1 # 2) A SELL
         /\ @effective_price reference_constants n
            == @side_target reference_constants engine_spread_004 (1 # 2) A SELL.
Proof.
  apply (@sell_price_mirrors_ask reference_constants engine_spread_004 [] 100 100
           (1 # 2) A).
  reference_ok.
Defined.

Lemma placed_orders_suppress_replacement_witness :
  exists l,
    @new_orders reference_constants engine_spread_004 [] 100 100 (1 # 2) A = Some l
    /\ exists l',
         @new_orders reference_constants engine_spread_004 ([] ++ l) 50 50 (1 # 2) A
         = Some l'
         /\ forall n n', In n l -> In n' l' -> side n' <> side n.
Proof.
  eexists. split; [vm_compute; reflexivity|].
  eapply (@placed_orders_suppress_replacement reference_constants engine_spread_004 []
            _ 100 100 (1 # 2) A 50 50).
  - reference_ok.
  - vm_compute. reflexivity.
Defined.

Lemma sizes_capped_by_order_size_witness :
  exists l,
    @new_orders reference_constants engine_spread_004 [] 100 100 (1 # 2) A = Some l
    /\ forall n, In n l ->
         (side n = BUY ->
          price n * order_size engine_spread_004
          <= max_notional_per_side engine_spread_004
          /\ size n <= py_round (Qmax 15 (order_size engine_spread_004)) 2)
         /\ (side n = SELL ->
             holdings engine_spread_004 B <= max_inventory_per_token engine_spread_004 ->
             size n <= py_round (Qmax 15 (order_size engine_spread_004)) 2).
Proof.
  apply (@sizes_capped_by_order_size reference_constants engine_spread_004 [] 100 100
           (1 # 2) A).
  reference_ok.
Defined.

Lemma rejected_sides_place_nothing_witness :
  @new_orders reference_constants default_engine [] 0 1 (1 # 2) A = Some [].
Proof.
  apply (@rejected_sides_place_nothing reference_constants default_engine [] 0 1 (1 # 2) A).
  - vm_compute. reflexivity.
  - left. vm_compute. reflexivity.
Defined.

Lemma pairs_partition_orders_witness :
  deduce_buy_token (_orders_by_corresponding_buy_token resting_orders A) = Some A.
Proof.
  apply (proj2 (proj2 (proj2 (pairs_partition_orders resting_orders A)))).
  vm_compute. discriminate.
Defined.

Lemma cycle_cancellations_within_book_witness :
  exists mm' orders_to_cancel orders_to_place,
    @get_orders reference_constants engine_one_bid
      (mkOrderBook resting_orders (fun _ => 0) 0) even_targets
    = Some (mm', (orders_to_cancel, orders_to_place))
    /\ (forall o, In o orders_to_cancel -> In o resting_orders)
    /\ (NoDup resting_orders -> NoDup orders_to_cancel).
Proof.
  apply (@cycle_cancellations_within_book reference_constants engine_one_bid
           (mkOrderBook resting_orders (fun _ => 0) 0) even_targets).
  reference_ok.
Defined.

Lemma cycle_places_one_order_per_side_token_witness :
  exists mm' orders_to_cancel orders_to_place,
    @get_orders reference_constants engine_big_orders book_more_cash even_targets
    = Some (mm', (orders_to_cancel, orders_to_place))
    /\ (forall s t, (length (on_side_token s t orders_to_place) <= 1)%nat)
    /\ (length orders_to_place <= 4)%nat.
Proof.
  apply (@cycle_places_one_order_per_side_token reference_constants engine_big_orders
           book_more_cash even_targets).
  reference_ok.
Defined.

Lemma cycle_sells_within_free_inventory_witness :
  exists mm' orders_to_cancel orders_to_place,
    @get_orders reference_constants engine_big_orders book_more_cash even_targets
    = Some (mm', (orders_to_cancel, orders_to_place))
    /\ forall n, In n orders_to_place -> side n = SELL ->
         let free :=
           balances book_more_cash (token n)
           - locked_sells_by_token (open_orders_of book_more_cash orders_to_cancel)
                                   (token n) in
         @floor_size reference_constants engine_big_orders <= free
         /\ size n <= py_round free 2.
Proof.
  apply (@cycle_sells_within_free_inventory reference_constants engine_big_orders
           book_more_cash even_targets).
  reference_ok.
Defined.

Lemma idle_cycle_witness :
  exists mm',
    @get_orders reference_constants default_engine book_empty even_targets
    = Some (mm', ([], [])).
Proof.
  apply (@idle_cycle reference_constants default_engine book_empty even_targets).
  - reference_ok.
  - vm_compute. reflexivity.
  - reflexivity.
  - vm_compute. discriminate.
  - intros t. vm_compute. reflexivity.
Defined.

Lemma ask_size_edges_witness :
  @_ask_size reference_constants default_engine 3 B == py_round 15 2.
Proof.
  apply (proj2 (proj2 (@ask_size_edges reference_constants default_engine 3 B))).
  vm_compute. reflexivity.
Defined.

Lemma quiet_book_cancels_nothing_witness :
  @cancellable_orders reference_constants engine_spread_004 [buy_0479] (1 # 2) = [].
Proof.
  eapply (@quiet_book_cancels_nothing reference_constants engine_spread_004 [buy_0479]
            (1 # 2)).
  - vm_compute. reflexivity.
  - intros o [<- | []]. vm_compute. reflexivity.
  - vm_compute. discriminate.
  - vm_compute. discriminate.
Defined.

(** With one bid allowed and two BUYs at 0.479 behind a BUY on the target,
    both BUYs at 0.479 are cancelled. *)
Lemma earlier_order_wins_ties_witness :
  In buy_0479_small
     (@cancellable_orders reference_constants engine_one_bid same_price_orders (1 # 2)).
Proof.
  eapply (@earlier_order_wins_ties reference_constants engine_one_bid same_price_orders
            (1 # 2) _ _ buy_0479 buy_0479_small).
  - unfold same_price_orders, buy_0479, buy_0479_small. distinct_orders.
  - vm_compute. reflexivity.
  - right. left. split; [reflexivity | left; reflexivity].
  - reflexivity.
  - reflexivity.
  - vm_compute. left. reflexivity.
Defined.

End MoreExamples.

(** * Crossing quotes and cancellation caps *)

(** ** Where the quotes can coincide *)

Module CrossingFacts.
Import RoundFacts PriceFacts QuoteFacts PlacementFacts QuoteMoreFacts.

(** C1, as amended.  For every midpoint and every configured half-spread the
    pair returned by [_desired_quotes] has [ask >= bid], and [ask > bid]
    exactly when the bid is below the upper clamp bound [1 - MIN_TICK]; the
    bid is below that bound for every midpoint that is not above
    [1 - MIN_TICK], hence for every midpoint [_mid_with_skew] produces. *)
Theorem desired_quotes_cross_only_at_upper_bound `{K : Constants} (self : SafeSpread)
    (mid : Q) :
  constants_ok ->
  let q := _desired_quotes self mid in
  fst q <= snd q
  /\ (fst q < snd q <-> fst q < 1 - MIN_TICK)
  /\ (mid <= 1 - MIN_TICK -> fst q < 1 - MIN_TICK).
Proof.
  intros Hok q. subst q.
  pose proof (ask_target_range self mid Hok) as [_ Hu].
  split; [apply bid_le_ask, Hok|]. split; [split|].
  - intros H. lra.
  - apply ask_above_bid_below_bound, Hok.
  - apply bid_below_upper_bound, Hok.
Qed.

End CrossingFacts.

(** ** The caps of the cancellation decision *)

Module CapFacts.
Import RoundFacts SortFacts CancelFacts CancelMoreFacts EdgeFacts.

Lemma NoDup_app_disjoint {X : Type} (l1 l2 : list X) (x : X) :
  NoDup (l1 ++ l2) -> In x l1 -> In x l2 -> False.
Proof.
  induction l1 as [|y l1 IH]; intros Hnd H1 H2; [destruct H1|].
  cbn [app] in Hnd. inversion Hnd as [|? ? Hy Hnd']; subst.
  destruct H1 as [-> | H1].
  - apply Hy, in_or_app. right. exact H2.
  - exact (IH Hnd' H1 H2).
Qed.

(** When the ranking of a side is longer than its cap, exactly the first
    [n] orders of the ranking survive. *)
Lemma survivors_count_full (key : Order -> Q) (orders far cancel : list Order)
    (s : Side) (n : nat) :
  (forall x, In x far -> In x cancel) ->
  (forall x, In x (skipn n (sort_by_key key (keep_of s far orders))) -> In x cancel) ->
  (forall x, In x cancel ->
     In x orders
     /\ (order_in x far = true
         \/ In x (skipn n (sort_by_key key (keep_of s far orders)))
         \/ side x <> s)) ->
  distinct_by_value orders ->
  skipn n (sort_by_key key (keep_of s far orders)) <> [] ->
  count_side s (List.filter (fun o => negb (order_in o cancel)) orders) = n.
Proof.
  intros Hfar Htail Hexact [Hnd Hval] Hne.
  set (ranked := sort_by_key key (keep_of s far orders)) in *.
  apply Nat.le_antisymm.
  { apply (survivors_count_le key orders far cancel s n Hfar Htail). }
  assert (Hrnd : NoDup ranked) by (apply sort_by_key_NoDup, NoDup_filter, Hnd).
  assert (Hlen : length (firstn n ranked) = n).
  { rewrite length_firstn. apply Nat.min_l.
    destruct (Nat.le_gt_cases (length ranked) n) as [Hle | Hgt]; [|lia].
    exfalso. apply Hne, skipn_all2, Hle. }
  rewrite <- Hlen at 1. unfold count_side.
  apply NoDup_incl_length.
  { rewrite <- (firstn_skipn n ranked) in Hrnd. eapply NoDup_app_remove_r, Hrnd. }
  intros x Hx.
  assert (Hxr : In x ranked).
  { rewrite <- (firstn_skipn n ranked). apply in_or_app. left. exact Hx. }
  pose proof Hxr as Hk. apply sort_by_key_In, keep_of_In in Hk.
  destruct Hk as (Hin & Hs & Hnf).
  apply filter_In. split; [|rewrite Hs; destruct s; reflexivity].
  apply filter_In. split; [exact Hin|]. apply negb_true_iff.
  destruct (order_in x cancel) eqn:E; [|reflexivity]. exfalso.
  apply existsb_exists in E. destruct E as (y & Hy & Heq).
  destruct (Hexact y Hy) as [Hyin Hcase].
  assert (x = y) by (apply Hval; assumption). subst y.
  destruct Hcase as [Hc | [Hc | Hc]].
  - congruence.
  - rewrite <- (firstn_skipn n ranked) in Hrnd.
    exact (NoDup_app_disjoint _ _ x Hrnd Hx Hc).
  - exact (Hc Hs).
Qed.

(** C4, as amended.  With non-negative [max_bids] and [max_asks], after
    removing the orders returned by [cancellable_orders] from the input at
    most [max_bids] BUYs and at most [max_asks] SELLs survive, and the
    survivors of a side are its closest non-far orders: every survivor is
    within [cancel_if_away_by] of its side's target and at least as close to
    it as every non-far order of that side that was cancelled; and, the
    orders being pairwise distinct, an order strictly within
    [cancel_if_away_by] is cancelled only when its side has exactly as many
    survivors as its cap allows. *)
Theorem caps_respected_closest_kept `{K : Constants} (self : SafeSpread)
    (orders : list Order) (target_price : Q) :
  (0 <= max_bids self)%Z -> (0 <= max_asks self)%Z ->
  let alive := survivors self orders target_price in
  (Z.of_nat (count_side BUY alive) <= max_bids self)%Z
  /\ (Z.of_nat (count_side SELL alive) <= max_asks self)%Z
  /\ forall bid_target ask_target,
       pair_targets self orders target_price = Some (bid_target, ask_target) ->
       (forall o, In o alive ->
          closeness bid_target ask_target o <= cancel_if_away_by self
          /\ forall o',
               In o' (cancellable_orders self orders target_price) ->
               side o' = side o ->
               closeness bid_target ask_target o' <= cancel_if_away_by self ->
               closeness bid_target ask_target o <= closeness bid_target ask_target o')
       /\ (distinct_by_value orders ->
           forall o',
             In o' (cancellable_orders self orders target_price) ->
             closeness bid_target ask_target o' < cancel_if_away_by self ->
             Z.of_nat (count_side (side o') alive) = cap_of self (side o')).
Proof.
  intros Hb Ha alive. subst alive.
  destruct (count_caps_respected self orders target_price Hb Ha) as (H1 & H2 & H3).
  split; [exact H1|]. split; [exact H2|].
  intros bid_target ask_target Hq. split; [exact (H3 bid_target ask_target Hq)|].
  clear H1 H2 H3. intros Hdist o' Ho' Hnear.
  unfold pair_targets in Hq.
  destruct (deduce_buy_token orders) as [t|] eqn:Et; [|discriminate].
  assert (Hq' : _desired_quotes self (_mid_with_skew self target_price t)
                = (bid_target, ask_target)) by congruence.
  unfold survivors.
  rewrite (cancellable_orders_unfold self orders target_price t Et) in Ho' |- *.
  cbv zeta in Ho' |- *. rewrite Hq' in Ho' |- *. cbn [fst snd] in Ho' |- *.
  clear Hq Hq'.
  set (key := closeness bid_target ask_target) in *.
  set (far := far_aways_of self bid_target ask_target orders) in *.
  rewrite !(excess_skipn (sort_by_key key (keep_of _ far orders))) in Ho' |- * by assumption.
  set (EB := skipn (Z.to_nat (max_bids self)) (sort_by_key key (keep_of BUY far orders)))
    in *.
  set (ES := skipn (Z.to_nat (max_asks self)) (sort_by_key key (keep_of SELL far orders)))
    in *.
  set (cancel := far ++ EB ++ ES) in *.
  assert (Hfar : forall x, In x far -> In x cancel)
    by (intros x Hx; apply in_or_app; left; exact Hx).
  assert (HEB : forall x, In x EB -> In x cancel)
    by (intros x Hx; apply in_or_app; right; apply in_or_app; left; exact Hx).
  assert (HES : forall x, In x ES -> In x cancel)
    by (intros x Hx; apply in_or_app; right; apply in_or_app; right; exact Hx).
  assert (HinB : forall x, In x EB -> In x orders /\ side x = BUY).
  { intros x Hx. apply skipn_In, sort_by_key_In, keep_of_In in Hx. tauto. }
  assert (HinS : forall x, In x ES -> In x orders /\ side x = SELL).
  { intros x Hx. apply skipn_In, sort_by_key_In, keep_of_In in Hx. tauto. }
  assert (Hparts : forall x, In x cancel -> In x far \/ In x EB \/ In x ES).
  { intros x Hx. apply in_app_or in Hx. destruct Hx as [Hx | Hx]; [tauto|].
    apply in_app_or in Hx. tauto. }
  assert (Ho'far : ~ In o' far).
  { intros Hf. apply filter_In in Hf. destruct Hf as [_ Hf].
    apply Qltb_true in Hf. fold key in Hf. lra. }
  destruct (Hparts o' Ho') as [Hf | [Hx | Hx]]; [contradiction | |].
  - (* an excess BUY *)
    destruct (HinB o' Hx) as [_ Hs]. rewrite Hs. cbn [cap_of].
    rewrite (survivors_count_full key orders far cancel BUY (Z.to_nat (max_bids self))
               Hfar HEB); [lia | | exact Hdist |].
    + intros x Hc. destruct (Hparts x Hc) as [Hxf | [HxB | HxS]].
      * split; [apply filter_In in Hxf; tauto|]. left. apply order_in_In, Hxf.
      * split; [apply HinB, HxB|]. right. left. exact HxB.
      * destruct (HinS x HxS) as [Hi Hss]. split; [exact Hi|]. right. right. congruence.
    + intros E. fold EB in E. rewrite E in Hx. destruct Hx.
  - (* an excess SELL *)
    destruct (HinS o' Hx) as [_ Hs]. rewrite Hs. cbn [cap_of].
    rewrite (survivors_count_full key orders far cancel SELL (Z.to_nat (max_asks self))
               Hfar HES); [lia | | exact Hdist |].
    + intros x Hc. destruct (Hparts x Hc) as [Hxf | [HxB | HxS]].
      * split; [apply filter_In in Hxf; tauto|]. left. apply order_in_In, Hxf.
      * destruct (HinB x HxB) as [Hi Hss]. split; [exact Hi|]. right. right. congruence.
      * split; [apply HinS, HxS|]. right. left. exact HxS.
    + intros E. fold ES in E. rewrite E in Hx. destruct Hx.
Qed.

End CapFacts.

(** ** Crossing and caps at concrete inputs *)

Module BoundExamples.
Import RoundFacts PriceFacts QuoteFacts CancelFacts CrossingFacts CapFacts.

Ltac reference_ok :=
  unfold constants_ok; cbn; repeat split; try reflexivity; exists 1%Z; reflexivity.

Lemma desired_quotes_cross_only_at_upper_bound_witness :
  let q := @_desired_quotes reference_constants default_engine (99 # 100) in
  fst q <= snd q
  /\ (fst q < snd q <-> fst q < 1 - (1 # 100))
  /\ (99 # 100 <= 1 - (1 # 100) -> fst q < 1 - (1 # 100)).
Proof.
  apply (@desired_quotes_cross_only_at_upper_bound reference_constants default_engine
           (99 # 100)).
  reference_ok.
Defined.

(** The scenario of the specification: with one bid allowed, the BUY 0.003
    away is cancelled as excess, the BUY 0.001 away survives, and one BUY is
    left. *)
Lemma caps_respected_closest_kept_witness :
  let alive := @survivors reference_constants engine_one_bid resting_orders (1 # 2) in
  (Z.of_nat (count_side BUY alive) <= max_bids engine_one_bid)%Z
  /\ (Z.of_nat (count_side SELL alive) <= max_asks engine_one_bid)%Z
  /\ forall bid_target ask_target,
       @pair_targets reference_constants engine_one_bid resting_orders (1 # 2)
       = Some (bid_target, ask_target) ->
       (forall o, In o alive ->
          @closeness reference_constants bid_target ask_target o
          <= cancel_if_away_by engine_one_bid
          /\ forall o',
               In o' (@cancellable_orders reference_constants engine_one_bid
                        resting_orders (1 # 2)) ->
               side o' = side o ->
               @closeness reference_constants bid_target ask_target o'
               <= cancel_if_away_by engine_one_bid ->
               @closeness reference_constants bid_target ask_target o
               <= @closeness reference_constants bid_target ask_target o')
       /\ (distinct_by_value resting_orders ->
           forall o',
             In o' (@cancellable_orders reference_constants engine_one_bid
                      resting_orders (1 # 2)) ->
             @closeness reference_constants bid_target ask_target o'
             < cancel_if_away_by engine_one_bid ->
             Z.of_nat (count_side (side o') alive) = cap_of engine_one_bid (side o')).
Proof.
  apply (@caps_respected_closest_kept reference_constants engine_one_bid resting_orders
           (1 # 2)).
  - vm_compute. discriminate.
  - vm_compute. discriminate.
Defined.

(** With [max_bids = -1] the slice [keep_buys[-1:]] cancels the last ranked
    BUY, and no number of survivors is at most the cap. *)
Lemma negative_cap_cannot_be_met :
  max_bids engine_negative_cap = (-1)%Z
  /\ ~ (Z.of_nat (count_side BUY
                    (@survivors reference_constants engine_negative_cap [buy_0479] (1 # 2)))
        <= max_bids engine_negative_cap)%Z.
Proof.
  split; [vm_compute; reflexivity|].
  vm_compute. intros H. apply H. reflexivity.
Qed.

End BoundExamples.

(** * Where the code misses a bound it computes *)

Module Defects.

(** C2.  [get_orders] with 7.20288 of free collateral, no resting order, an
    order size of 20 and a bid target of 0.48: [_bid_size] caps the size by
    [collateral / price = 15.006] and then rounds it to 15.01, so the one BUY
    placed has a notional of 7.2048, more than the free collateral. *)
Lemma cycle_overspends_free_collateral :
  exists mm' orders_to_cancel n,
    @get_orders reference_constants engine_big_orders book_small_cash even_targets
    = Some (mm', (orders_to_cancel, [n]))
    /\ side n = BUY /\ price n == 48 # 100 /\ size n == 1501 # 100
    /\ @free_collateral_at_start book_small_cash orders_to_cancel == 720288 # 100000
    /\ @free_collateral_at_start book_small_cash orders_to_cancel < buy_notional [n].
Proof.
  eexists _, _, _. split; [vm_compute; reflexivity|].
  repeat split; vm_compute; reflexivity.
Qed.

(** C3.  [new_orders] with holdings of 39.5 of the buy-token and an inventory
    cap of 40: [_bid_size] takes the minimum with the headroom 0.5 and then
    clamps the size up to [MIN_SIZE = 15], so the BUY placed brings the
    projected holdings to 54.5. *)
Lemma buy_lifted_past_inventory_cap :
  exists n,
    @new_orders reference_constants engine_long_A [] 100 0 (1 # 2) A = Some [n]
    /\ side n = BUY /\ size n == 15
    /\ holdings engine_long_A A == 395 # 10
    /\ max_inventory_per_token engine_long_A == 40
    /\ max_inventory_per_token engine_long_A < holdings engine_long_A A + size n.
Proof.
  eexists. split; [vm_compute; reflexivity|].
  repeat split; vm_compute; reflexivity.
Qed.

(** C5.  [new_orders] with a free complement balance of 15.006 and an order
    size of 20: [_ask_size] bounds the size by the balance and then rounds it
    to 15.01, so the SELL placed is larger than the free balance. *)
Lemma sell_exceeds_free_balance :
  exists n,
    @new_orders reference_constants engine_big_orders [] 0 (15006 # 1000) (1 # 2) A
    = Some [n]
    /\ side n = SELL /\ size n == 1501 # 100
    /\ 15006 # 1000 < size n.
Proof.
  eexists. split; [vm_compute; reflexivity|].
  repeat split; vm_compute; reflexivity.
Qed.

End Defects.
